(** * Makerspace inventory hub: the Apps Script API service layer

    A shallow embedding of the cache-coordinated request layer (the TTL
    cache, the [get]/[post] helpers, the validation helpers and the API
    functions that tie successful writes to the eviction of cache keys),
    followed by the properties the specification states about it.

    The module-level [cache] map, the wall clock read by [Date.now()] and
    the requests handed to [fetch] are threaded through a small state and
    exception monad; what the host answers (clock readings, HTTP replies,
    number formatting) is a parameter of the development. *)

From Stdlib Require Import ZArith NArith QArith_base Ascii String DecimalString List Lia.
From stdpp Require Import base option list gmap.

Local Open Scope Z_scope.

(* ------------------------------------------------------------------------- *)
(** ** Strings *)

(** A JavaScript string is a sequence of UTF-16 code units. *)
Abbreviation code_unit := N (only parsing).
Abbreviation jsstring := (list N) (only parsing).

(** A source literal, code unit by code unit (the literals of this module
    are ASCII). *)
Definition str (s : string) : jsstring :=
  map N_of_ascii (list_ascii_of_string s).
Arguments str : simpl never.

(** ECMA-262 WhiteSpace: TAB, VT, FF, SP, NBSP, ZWNBSP and category Zs. *)
Definition is_white_space (c : code_unit) : bool :=
  (N.eqb c 0x0009 || N.eqb c 0x000B || N.eqb c 0x000C || N.eqb c 0x0020
   || N.eqb c 0x00A0 || N.eqb c 0xFEFF || N.eqb c 0x1680
   || (N.leb 0x2000 c && N.leb c 0x200A)
   || N.eqb c 0x202F || N.eqb c 0x205F || N.eqb c 0x3000)%bool.

(** ECMA-262 LineTerminator: LF, CR, LS, PS. *)
Definition is_line_terminator (c : code_unit) : bool :=
  (N.eqb c 0x000A || N.eqb c 0x000D || N.eqb c 0x2028 || N.eqb c 0x2029)%bool.

(** The code units [String.prototype.trim] strips. *)
Definition strippable (c : code_unit) : bool :=
  (is_white_space c || is_line_terminator c)%bool.

Fixpoint trimStart (s : jsstring) : jsstring :=
  match s with
  | [] => []
  | c :: rest => if strippable c then trimStart rest else s
  end.

Definition trimEnd (s : jsstring) : jsstring :=
  rev (trimStart (rev s)).

(** [value.trim()] *)
Definition trim (s : jsstring) : jsstring :=
  trimEnd (trimStart s).

(* ------------------------------------------------------------------------- *)
(** ** Numbers and JSON values *)

(** A JavaScript number.  Every finite double is a (dyadic) rational, so
    [Finite] ranges over a superset of the finite doubles; [-0] and [+0]
    are both [Finite 0]. *)
Inductive number : Type :=
| NaN
| Infinity
| NegInfinity
| Finite (q : Q).

(** [Number.isInteger(value)] *)
Definition Number_isInteger (value : number) : bool :=
  match value with
  | Finite q => Z.rem (Qnum q) (Zpos (Qden q)) =? 0
  | _ => false
  end.

(** [value < 1] *)
Definition lt_one (value : number) : bool :=
  match value with
  | NaN => false
  | Infinity => false
  | NegInfinity => true
  | Finite q => Qnum q <? Zpos (Qden q)
  end.

Definition of_Z (z : Z) : number := Finite (Qmake z 1).

(** What [res.json()] can produce, which is also what the cache holds
    ([CacheEntry<unknown>]). *)
#[local] Set Warnings "-register-all".
Inductive json : Type :=
| JNull
| JBool (b : bool)
| JNum (n : number)
| JStr (s : jsstring)
| JArr (items : list json)
| JObj (fields : list (jsstring * json)).

(** JavaScript's ToBoolean, which decides [if (x)] and [!x]. *)
Class ToBoolean (A : Type) := truthy : A -> bool.

Global Instance number_ToBoolean : ToBoolean number := fun n =>
  match n with
  | NaN => false
  | Finite q => negb (Qnum q =? 0)
  | _ => true
  end.

Global Instance string_ToBoolean : ToBoolean jsstring := fun s =>
  match s with [] => false | _ :: _ => true end.

Global Instance json_ToBoolean : ToBoolean json := fun v =>
  match v with
  | JNull => false
  | JBool b => b
  | JNum n => truthy n
  | JStr s => truthy s
  | JArr _ => true
  | JObj _ => true
  end.

(** An optional field or argument: [undefined] is falsy. *)
Global Instance option_ToBoolean {A} `{ToBoolean A} : ToBoolean (option A) :=
  fun o => match o with None => false | Some a => truthy a end.

(* ------------------------------------------------------------------------- *)
(** ** Errors, requests and replies *)

Inductive JsError : Type :=
| Error (message : jsstring)
| TypeError (message : jsstring)
| SyntaxError (message : jsstring).

(** How a call ends: with a value, or with an exception (for an [async]
    function, a rejected promise). *)
Inductive Completion (A : Type) : Type :=
| Returned (a : A)
| Thrown (e : JsError).
Arguments Returned {A} a.
Arguments Thrown {A} e.

(** What is handed to [fetch]: the query parameters set on the endpoint
    URL, or the object serialised into the body of a POST. *)
Inductive Request : Type :=
| GET (params : list (jsstring * jsstring))
| POST (body : list (jsstring * json)).

(** What [fetch] followed by [res.json()] gives back. *)
Inductive FetchResult (T : Type) : Type :=
| Rejected (reason : JsError)
| Response (status : N) (statusText : jsstring) (body : Completion T).
Arguments Rejected {T} reason.
Arguments Response {T} status statusText body.

(** [res.ok] *)
Definition ok (status : N) : bool :=
  (N.leb 200 status && N.leb status 299)%bool.

(** [{ success?: boolean; error?: string }] *)
Record PostReply : Type := mkPostReply {
  reply_success : option bool;
  error : option jsstring
}.

(** [{ success: boolean; message: string }] *)
Record TransactionResult : Type := mkResult {
  success : bool;
  message : jsstring
}.

(** The environment the module runs in. *)
Record Host : Type := mkHost {
  (** Number::toString, as used by template literals *)
  Number_toString : number -> jsstring;
  (** the exception [new URL(BASE_URL)] throws, if the configured
      endpoint is not an absolute URL *)
  BASE_URL_invalid : option JsError;
  (** the n-th reading of the wall clock, in milliseconds *)
  clock : nat -> Z;
  (** the reply to a GET, given how many requests went out before it *)
  served_get : nat -> list (jsstring * jsstring) -> FetchResult json;
  (** the reply to a POST, likewise *)
  served_post : nat -> list (jsstring * json) -> FetchResult PostReply
}.

(* ------------------------------------------------------------------------- *)
(** ** The cache and the world *)

Record CacheEntry : Type := mkEntry {
  data : json;
  timestamp : Z
}.

Record World : Type := mkWorld {
  (** [const cache = new Map<string, CacheEntry<unknown>>()] *)
  cache : gmap jsstring CacheEntry;
  (** how many times the clock has been read *)
  ticks : nat;
  (** the requests handed to [fetch] so far, oldest first *)
  sent : list Request
}.

Definition with_cache (f : gmap jsstring CacheEntry -> gmap jsstring CacheEntry)
    (w : World) : World :=
  mkWorld (f (cache w)) (ticks w) (sent w).

(** Computations that read and change the world and may throw. *)
Definition Js (A : Type) : Type := World -> Completion A * World.

Definition ret {A} (a : A) : Js A := fun w => (Returned a, w).

Definition throw {A} (e : JsError) : Js A := fun w => (Thrown e, w).

(** A computation that ends as [c] does and touches nothing. *)
Definition settle {A} (c : Completion A) : Js A := fun w => (c, w).

Definition bind {A B} (m : Js A) (k : A -> Js B) : Js B := fun w =>
  match m w with
  | (Returned a, w') => k a w'
  | (Thrown e, w') => (Thrown e, w')
  end.

Notation "x <- m ;; k" := (bind m (fun x => k))
  (at level 100, m at next level, right associativity).
Notation "m ;; k" := (bind m (fun _ => k))
  (at level 100, right associativity).

Definition CACHE_TTL_MS : Z := 2 * 60 * 1000.

Section Api.

Context (host : Host).

(** [Date.now()] *)
Definition Date_now : Js Z := fun w =>
  (Returned (clock host (ticks w)), mkWorld (cache w) (S (ticks w)) (sent w)).

Definition cache_get (key : jsstring) : Js (option CacheEntry) := fun w =>
  (Returned (cache w !! key), w).

Definition cache_set (key : jsstring) (entry : CacheEntry) : Js unit := fun w =>
  (Returned tt, with_cache (insert key entry) w).

Definition cache_delete (key : jsstring) : Js unit := fun w =>
  (Returned tt, with_cache (delete key) w).

Definition cache_clear : Js unit := fun w =>
  (Returned tt, with_cache (fun _ => ∅) w).

Definition getCached (key : jsstring) : Js json :=
  entry <- cache_get key ;;
  match entry with
  | None => ret JNull
  | Some entry =>
      now <- Date_now ;;
      if now - timestamp entry >? CACHE_TTL_MS
      then cache_delete key ;; ret JNull
      else ret (data entry)
  end.

Definition setCache (key : jsstring) (data : json) : Js unit :=
  now <- Date_now ;;
  cache_set key (mkEntry data now).

(** Force-clear a specific cache key or the entire cache. *)
Definition invalidateCache (key : option jsstring) : Js unit :=
  if truthy key
  then match key with Some k => cache_delete k | None => ret tt end
  else cache_clear.

(** [fetch(url)] for the read helper. *)
Definition fetch_get (params : list (jsstring * jsstring)) : Js (FetchResult json) :=
  fun w =>
    (Returned (served_get host (length (sent w)) params),
     mkWorld (cache w) (ticks w) (sent w ++ [GET params])).

(** [fetch(BASE_URL, { method: "POST", ... })] for the write helper. *)
Definition fetch_post (body : list (jsstring * json)) : Js (FetchResult PostReply) :=
  fun w =>
    (Returned (served_post host (length (sent w)) body),
     mkWorld (cache w) (ticks w) (sent w ++ [POST body])).

Definition request_failed (status : N) (statusText : jsstring) : JsError :=
  Error (str "Request failed: " ++ Number_toString host (of_Z (Z.of_N status))
         ++ str " " ++ statusText).

(** What both helpers do with the outcome of [fetch]: a rejection is
    passed on, a status outside 2xx throws, otherwise the call ends as
    [res.json()] does. *)
Definition decode {T} (res : FetchResult T) : Js T :=
  match res with
  | Rejected reason => throw reason
  | Response status statusText body =>
      if negb (ok status) then throw (request_failed status statusText)
      else settle body
  end.

Definition get (params : list (jsstring * jsstring)) : Js json :=
  match BASE_URL_invalid host with
  | Some e => throw e
  | None => res <- fetch_get params ;; decode res
  end.

(** GET with cache: returns cached data if fresh, otherwise fetches and
    caches. *)
Definition cachedGet (cacheKey : jsstring) (params : list (jsstring * jsstring))
    : Js json :=
  hit <- getCached cacheKey ;;
  if truthy hit then ret hit
  else
    data <- get params ;;
    setCache cacheKey data ;;
    ret data.

Definition post (body : list (jsstring * json)) : Js PostReply :=
  res <- fetch_post body ;; decode res.

Definition validateNotEmpty (value fieldName : jsstring) : Js unit :=
  if (negb (truthy value) || negb (truthy (trim value)))%bool
  then throw (Error (fieldName ++ str " is required."))
  else ret tt.

Definition validatePositiveInt (value : number) (fieldName : jsstring) : Js unit :=
  if (negb (Number_isInteger value) || lt_one value)%bool
  then throw (Error (fieldName ++ str " must be a positive integer."))
  else ret tt.

Definition fetchCases : Js json :=
  cachedGet (str "getCases") [(str "action", str "getCases")].

Definition fetchComponentsByCase (caseName : jsstring) : Js json :=
  validateNotEmpty caseName (str "Case name") ;;
  cachedGet (str "getComponents:" ++ caseName)
    [(str "action", str "getComponents"); (str "case", caseName)].

Definition borrowComponent (userId caseName component : jsstring)
    (quantity : number) : Js TransactionResult :=
  validateNotEmpty userId (str "User ID") ;;
  validateNotEmpty caseName (str "Case name") ;;
  validateNotEmpty component (str "Component") ;;
  validatePositiveInt quantity (str "Quantity") ;;
  data <- post [(str "action", JStr (str "borrow"));
                (str "userId", JStr (trim userId));
                (str "caseName", JStr caseName);
                (str "component", JStr component);
                (str "quantity", JNum quantity)] ;;
  if truthy (error data)
  then (* [data.error] is a non-empty string on this branch *)
       ret (mkResult false (default [] (error data)))
  else
    invalidateCache (Some (str "getLiveStock")) ;;
    invalidateCache (Some (str "getComponents:" ++ caseName)) ;;
    ret (mkResult true
           (str "Successfully borrowed " ++ Number_toString host quantity
            ++ str "x " ++ component ++ str "!")).

Definition fetchUserHoldings (userId : jsstring) : Js json :=
  validateNotEmpty userId (str "User ID") ;;
  get [(str "action", str "getUserHoldings"); (str "userId", trim userId)].

Definition returnComponent (userId component : jsstring) (quantity : number)
    : Js TransactionResult :=
  validateNotEmpty userId (str "User ID") ;;
  validateNotEmpty component (str "Component") ;;
  validatePositiveInt quantity (str "Quantity") ;;
  data <- post [(str "action", JStr (str "return"));
                (str "userId", JStr (trim userId));
                (str "component", JStr component);
                (str "quantity", JNum quantity)] ;;
  if truthy (error data)
  then (* [data.error] is a non-empty string on this branch *)
       ret (mkResult false (default [] (error data)))
  else
    invalidateCache (Some (str "getLiveStock")) ;;
    ret (mkResult true
           (str "Successfully returned " ++ Number_toString host quantity
            ++ str "x " ++ component ++ str "!")).

Definition fetchLiveStock : Js json :=
  cachedGet (str "getLiveStock") [(str "action", str "getLiveStock")].

End Api.

(* ------------------------------------------------------------------------- *)
(** ** Vocabulary of the properties *)

(** The world after one reading of the clock. *)
Definition ticked (w : World) : World :=
  mkWorld (cache w) (S (ticks w)) (sent w).

(** What [validateNotEmpty] rejects. *)
Definition blank (value : jsstring) : bool :=
  (negb (truthy value) || negb (truthy (trim value)))%bool.

(** What [validatePositiveInt] accepts. *)
Definition positive_integer (value : number) : bool :=
  negb (negb (Number_isInteger value) || lt_one value)%bool.

(** [t] is [s] without its leading and trailing white space and line
    terminators. *)
Definition stripped_of (s t : jsstring) : Prop :=
  exists pre post,
    s = pre ++ t ++ post /\
    forallb strippable pre = true /\
    forallb strippable post = true /\
    (forall c rest, t = c :: rest -> strippable c = false) /\
    (forall c init, t = init ++ [c] -> strippable c = false).

(** The object [borrowComponent] posts. *)
Definition borrow_body (userId caseName component : jsstring) (quantity : number)
    : list (jsstring * json) :=
  [(str "action", JStr (str "borrow"));
   (str "userId", JStr (trim userId));
   (str "caseName", JStr caseName);
   (str "component", JStr component);
   (str "quantity", JNum quantity)].

(** The object [returnComponent] posts. *)
Definition return_body (userId component : jsstring) (quantity : number)
    : list (jsstring * json) :=
  [(str "action", JStr (str "return"));
   (str "userId", JStr (trim userId));
   (str "component", JStr component);
   (str "quantity", JNum quantity)].

(** Whether [cachedGet] answers from the store: there is an entry, it is
    not older than the TTL, and its value is truthy. *)
Definition served_from_cache (host : Host) (key : jsstring) (w : World) : bool :=
  match cache w !! key with
  | Some entry =>
      (negb (clock host (ticks w) - timestamp entry >? CACHE_TTL_MS)
       && truthy (data entry))%bool
  | None => false
  end.

(** What [cachedGet] does once the lookup has missed. *)
Definition fetch_and_store (host : Host) (key : jsstring)
    (params : list (jsstring * jsstring)) : Js json :=
  data <- get host params ;;
  setCache host key data ;;
  ret data.

(** [borrowComponent] from the [await post(...)] on. *)
Definition after_borrow_validation (host : Host) (caseName component : jsstring)
    (quantity : number) (posted : Js PostReply) : Js TransactionResult :=
  data <- posted ;;
  if truthy (error data)
  then ret (mkResult false (default [] (error data)))
  else
    invalidateCache (Some (str "getLiveStock")) ;;
    invalidateCache (Some (str "getComponents:" ++ caseName)) ;;
    ret (mkResult true
           (str "Successfully borrowed " ++ Number_toString host quantity
            ++ str "x " ++ component ++ str "!")).

(** [returnComponent] from the [await post(...)] on. *)
Definition after_return_validation (host : Host) (component : jsstring)
    (quantity : number) (posted : Js PostReply) : Js TransactionResult :=
  data <- posted ;;
  if truthy (error data)
  then ret (mkResult false (default [] (error data)))
  else
    invalidateCache (Some (str "getLiveStock")) ;;
    ret (mkResult true
           (str "Successfully returned " ++ Number_toString host quantity
            ++ str "x " ++ component ++ str "!")).

(** The errors the validation helpers throw for the arguments of the API
    functions. *)
Definition ValidationError (e : JsError) : Prop :=
  exists fieldName,
    In fieldName [str "User ID"; str "Case name"; str "Component"; str "Quantity"] /\
    (e = Error (fieldName ++ str " is required.") \/
     e = Error (fieldName ++ str " must be a positive integer.")).

(* ------------------------------------------------------------------------- *)
(** ** Cache operations that store nothing *)

Inductive CacheOp : Type :=
| OpGet (key : jsstring)
| OpInvalidate (key : option jsstring).

Definition run_op (host : Host) (op : CacheOp) (w : World) : World :=
  match op with
  | OpGet key => snd (getCached host key w)
  | OpInvalidate key => snd (invalidateCache key w)
  end.

Definition run_ops (host : Host) (ops : list CacheOp) (w : World) : World :=
  fold_left (fun w op => run_op host op w) ops w.

(* ------------------------------------------------------------------------- *)
(** ** A host to run examples on *)

(** Decimal digits of an integer.  Number::toString prints the integers of
    magnitude below 2^53 this way; the examples print no other number. *)
Definition decimal (z : Z) : jsstring :=
  str (DecimalString.NilZero.string_of_int (Z.to_int z)).

Definition print_number (n : number) : jsstring :=
  match n with
  | NaN => str "NaN"
  | Infinity => str "Infinity"
  | NegInfinity => str "-Infinity"
  | Finite q => decimal (Qnum q / Zpos (Qden q))
  end.

Definition accepted : FetchResult PostReply :=
  Response 200 (str "OK") (Returned (mkPostReply (Some true) None)).

Definition refused (reason : jsstring) : FetchResult PostReply :=
  Response 200 (str "OK") (Returned (mkPostReply None (Some reason))).

(** A host whose clock advances one second per reading and whose backend
    answers every GET with [reply] and every POST with [verdict]. *)
Definition steady_host (reply : json) (verdict : FetchResult PostReply) : Host :=
  mkHost print_number None (fun n => 1000 * Z.of_nat n)
    (fun _ _ => Response 200 (str "OK") (Returned reply))
    (fun _ _ => verdict).

Definition empty_world : World := mkWorld ∅ 0 [].

(* ------------------------------------------------------------------------- *)
(** ** The e-mail notifier ([src/lib/email.ts]) *)

(** A literal of the HTML templates, written with ['] where the source has
    a double quote (the templates contain no apostrophe). *)
Definition markup (s : string) : jsstring :=
  map (fun a => if Ascii.eqb a "'"%char then 34%N else N_of_ascii a)
    (list_ascii_of_string s).
Arguments markup : simpl never.

(** The POST handed to [fetch] for ["https://api.brevo.com/v3/smtp/email"]:
    the [api-key] header and the object serialised into the body. *)
Record BrevoRequest : Type := mkBrevoRequest {
  api_key : option jsstring;
  sender_name : jsstring;
  sender_email : option jsstring;
  to_email : option jsstring;
  to_name : jsstring;
  subject : jsstring;
  htmlContent : jsstring
}.

Inductive LogLine : Type :=
| console_warn (text : jsstring)
| console_error (text : jsstring) (detail : jsstring)
| console_error_caught (text : jsstring) (caught : JsError).

(** The environment of the notifier: the [import.meta.env] values (absent
    ones are [None]), the strings the host prints for dates and numbers,
    and what Brevo answers; the body of a [Response] is the outcome of
    [response.text()]. *)
Record MailHost : Type := mkMailHost {
  VITE_BREVO_API_KEY : option jsstring;
  VITE_ADMIN_EMAIL : option jsstring;
  VITE_FROM_EMAIL : option jsstring;
  VITE_FROM_NAME : option jsstring;
  toLocaleString : nat -> jsstring;
  number_text : number -> jsstring;
  brevo : nat -> BrevoRequest -> FetchResult jsstring
}.

Record MailWorld : Type := mkMailWorld {
  (** the requests handed to [fetch] so far, oldest first *)
  outbox : list BrevoRequest;
  (** what went to the console, oldest first *)
  console : list LogLine;
  (** how many dates have been taken *)
  dates : nat
}.

Definition Mail (A : Type) : Type := MailWorld -> Completion A * MailWorld.

Definition mail_ret {A} (a : A) : Mail A := fun m => (Returned a, m).

Definition mail_throw {A} (e : JsError) : Mail A := fun m => (Thrown e, m).

Definition mail_bind {A B} (c : Mail A) (k : A -> Mail B) : Mail B := fun m =>
  match c m with
  | (Returned a, m') => k a m'
  | (Thrown e, m') => (Thrown e, m')
  end.

(** [try { body } catch (error) { handler }] *)
Definition try_catch {A} (body : Mail A) (handler : JsError -> Mail A) : Mail A :=
  fun m =>
    match body m with
    | (Returned a, m') => (Returned a, m')
    | (Thrown e, m') => handler e m'
    end.

Notation "x <~ c ;; k" := (mail_bind c (fun x => k))
  (at level 100, c at next level, right associativity).

Definition log (line : LogLine) : Mail unit := fun m =>
  (Returned tt, mkMailWorld (outbox m) (console m ++ [line]) (dates m)).

(** [interface EmailParams] *)
Record EmailParams : Type := mkEmailParams {
  param_userId : jsstring;
  param_component : jsstring;
  param_quantity : number;
  param_caseName : option jsstring
}.

Section Notifier.

Context (host : MailHost).

Definition BREVO_API_KEY : option jsstring := VITE_BREVO_API_KEY host.
Definition ADMIN_EMAIL : option jsstring := VITE_ADMIN_EMAIL host.
Definition FROM_EMAIL : option jsstring := VITE_FROM_EMAIL host.

(** [import.meta.env.VITE_FROM_NAME || "Makerspace Inventory"] *)
Definition FROM_NAME : jsstring :=
  if truthy (VITE_FROM_NAME host) then default [] (VITE_FROM_NAME host)
  else str "Makerspace Inventory".

(** [new Date().toLocaleString()] *)
Definition Date_toLocaleString : Mail jsstring := fun m =>
  (Returned (toLocaleString host (dates m)),
   mkMailWorld (outbox m) (console m) (S (dates m))).

(** [await fetch("https://api.brevo.com/v3/smtp/email", ...)] *)
Definition fetch_brevo (request : BrevoRequest) : Mail (N * Completion jsstring) :=
  fun m =>
    let m' := mkMailWorld (outbox m ++ [request]) (console m) (dates m) in
    match brevo host (length (outbox m)) request with
    | Rejected reason => (Thrown reason, m')
    | Response status _ text => (Returned (status, text), m')
    end.

(** [await response.text()] *)
Definition response_text (text : Completion jsstring) : Mail jsstring :=
  fun m => (text, m).

(** Send email via Brevo API *)
Definition sendBrevoEmail (to : option jsstring) (subject htmlContent : jsstring)
    : Mail unit :=
  if negb (truthy BREVO_API_KEY)
  then log (console_warn
              (str "VITE_BREVO_API_KEY not set. Skipping email notification."))
  else if (negb (truthy ADMIN_EMAIL) || negb (truthy FROM_EMAIL))%bool
  then log (console_warn
              (str "Email configuration incomplete. Skipping notification."))
  else
    try_catch
      (response <~ fetch_brevo
                     (mkBrevoRequest BREVO_API_KEY FROM_NAME FROM_EMAIL
                        to (str "Admin") subject htmlContent) ;;
       if negb (ok (fst response))
       then error <~ response_text (snd response) ;;
            log (console_error (str "Failed to send email via Brevo:") error)
       else mail_ret tt)
      (fun error => log (console_error_caught (str "Error sending email:") error)).

(** Send borrow alert email *)
Definition sendBorrowAlert (params : EmailParams) : Mail unit :=
  let userId := param_userId params in
  let component := param_component params in
  let quantity := param_quantity params in
  let caseName := param_caseName params in
  timestamp <~ Date_toLocaleString ;;
  let subject :=
    [0xD83D; 0xDCE6]%N ++ str " Inventory Alert: " ++ component ++ str " Borrowed" in
  let htmlContent :=
    markup "
    <html>
      <body style='font-family: Arial, sans-serif; line-height: 1.6; color: #333;'>
        <div style='max-width: 600px; margin: 0 auto; padding: 20px; background-color: #f9f9f9; border-radius: 8px;'>
          <h2 style='color: #2563eb; margin-top: 0;'>Component Borrowed</h2>
          
          <div style='background-color: white; padding: 20px; border-radius: 6px; margin: 20px 0;'>
            <table style='width: 100%; border-collapse: collapse;'>
              <tr>
                <td style='padding: 10px; font-weight: bold; width: 140px;'>User ID:</td>
                <td style='padding: 10px;'>"
    ++ userId
    ++ markup "</td>
              </tr>
              <tr style='background-color: #f8f9fa;'>
                <td style='padding: 10px; font-weight: bold;'>Component:</td>
                <td style='padding: 10px;'>"
    ++ component
    ++ markup "</td>
              </tr>
              "
    ++ (if truthy caseName then markup "
              <tr>
                <td style='padding: 10px; font-weight: bold;'>Case:</td>
                <td style='padding: 10px;'>"
    ++ default [] caseName
    ++ markup "</td>
              </tr>
              " else [])
    ++ markup "
              <tr style='"
    ++ (if negb (truthy caseName) then markup "background-color: #f8f9fa;" else [])
    ++ markup "'>
                <td style='padding: 10px; font-weight: bold;'>Quantity:</td>
                <td style='padding: 10px; color: #dc2626; font-weight: bold;'>"
    ++ number_text host quantity
    ++ markup " units</td>
              </tr>
              <tr "
    ++ (if truthy caseName then markup "style='background-color: #f8f9fa;'" else [])
    ++ markup ">
                <td style='padding: 10px; font-weight: bold;'>Timestamp:</td>
                <td style='padding: 10px;'>"
    ++ timestamp
    ++ markup "</td>
              </tr>
            </table>
          </div>
          
          <p style='color: #666; font-size: 14px; margin-top: 20px;'>
            This is an automated notification from the Makerspace Inventory Hub.
          </p>
        </div>
      </body>
    </html>
  " in
  sendBrevoEmail ADMIN_EMAIL subject htmlContent.

(** Send return alert email *)
Definition sendReturnAlert (params : EmailParams) : Mail unit :=
  let userId := param_userId params in
  let component := param_component params in
  let quantity := param_quantity params in
  timestamp <~ Date_toLocaleString ;;
  let subject :=
    [0x2705]%N ++ str " Inventory Alert: " ++ component ++ str " Returned" in
  let htmlContent :=
    markup "
    <html>
      <body style='font-family: Arial, sans-serif; line-height: 1.6; color: #333;'>
        <div style='max-width: 600px; margin: 0 auto; padding: 20px; background-color: #f9f9f9; border-radius: 8px;'>
          <h2 style='color: #16a34a; margin-top: 0;'>Component Returned</h2>
          
          <div style='background-color: white; padding: 20px; border-radius: 6px; margin: 20px 0;'>
            <table style='width: 100%; border-collapse: collapse;'>
              <tr>
                <td style='padding: 10px; font-weight: bold; width: 140px;'>User ID:</td>
                <td style='padding: 10px;'>"
    ++ userId
    ++ markup "</td>
              </tr>
              <tr style='background-color: #f8f9fa;'>
                <td style='padding: 10px; font-weight: bold;'>Component:</td>
                <td style='padding: 10px;'>"
    ++ component
    ++ markup "</td>
              </tr>
              <tr>
                <td style='padding: 10px; font-weight: bold;'>Quantity:</td>
                <td style='padding: 10px; color: #16a34a; font-weight: bold;'>"
    ++ number_text host quantity
    ++ markup " units</td>
              </tr>
              <tr style='background-color: #f8f9fa;'>
                <td style='padding: 10px; font-weight: bold;'>Timestamp:</td>
                <td style='padding: 10px;'>"
    ++ timestamp
    ++ markup "</td>
              </tr>
            </table>
          </div>
          
          <p style='color: #666; font-size: 14px; margin-top: 20px;'>
            This is an automated notification from the Makerspace Inventory Hub.
          </p>
        </div>
      </body>
    </html>
  " in
  sendBrevoEmail ADMIN_EMAIL subject htmlContent.

End Notifier.

(** A notifier host with every setting present and a Brevo that answers
    [reply]. *)
Definition configured_mail (reply : FetchResult jsstring) : MailHost :=
  mkMailHost (Some (str "xkeysib-1")) (Some (str "admin@example.org"))
    (Some (str "hub@example.org")) None
    (fun _ => str "1/1/2026, 10:00:00 AM") print_number (fun _ _ => reply).

Definition quiet_mail : MailWorld := mkMailWorld [] [] 0.

(* ------------------------------------------------------------------------- *)
(** ** The cache store *)

Lemma ttl_value : CACHE_TTL_MS = 120000.
Proof. reflexivity. Qed.

Lemma world_eta (w : World) : mkWorld (cache w) (ticks w) (sent w) = w.
Proof. by destruct w. Qed.

Section CacheFacts.

Context (host : Host).

Lemma getCached_absent key w :
  cache w !! key = None ->
  getCached host key w = (Returned JNull, w).
Proof.
  intros Hnone. unfold getCached, bind, cache_get. by rewrite Hnone.
Qed.

Lemma getCached_fresh key entry w :
  cache w !! key = Some entry ->
  clock host (ticks w) - timestamp entry <= CACHE_TTL_MS ->
  getCached host key w = (Returned (data entry), ticked w).
Proof.
  intros Hsome Hage. unfold getCached, bind, cache_get, Date_now.
  rewrite Hsome. cbn.
  destruct (Z.gtb_spec (clock host (ticks w) - timestamp entry) CACHE_TTL_MS);
    [lia | done].
Qed.

Lemma getCached_expired key entry w :
  cache w !! key = Some entry ->
  clock host (ticks w) - timestamp entry > CACHE_TTL_MS ->
  getCached host key w = (Returned JNull, with_cache (delete key) (ticked w)).
Proof.
  intros Hsome Hage. unfold getCached, bind, cache_get, Date_now.
  rewrite Hsome. cbn.
  destruct (Z.gtb_spec (clock host (ticks w) - timestamp entry) CACHE_TTL_MS);
    [done | lia].
Qed.

(** A lookup never throws, never sends anything, and changes the store at
    most by dropping the entry it was asked for. *)
Lemma getCached_effect key w :
  exists v w',
    getCached host key w = (Returned v, w') /\
    sent w' = sent w /\
    (cache w' = cache w \/
     (exists entry, cache w !! key = Some entry /\
                    clock host (ticks w) - timestamp entry > CACHE_TTL_MS /\
                    v = JNull /\ cache w' = delete key (cache w))).
Proof.
  destruct (cache w !! key) as [entry|] eqn:Hlook.
  - destruct (Z_le_gt_dec (clock host (ticks w) - timestamp entry) CACHE_TTL_MS).
    + rewrite (getCached_fresh key entry w) by done.
      eexists _, _. split; [done|]. cbn. auto.
    + rewrite (getCached_expired key entry w) by done.
      eexists _, _. split; [done|]. cbn.
      split; [done|]. right. by exists entry.
  - rewrite getCached_absent by done. eexists _, _. auto.
Qed.

Lemma setCache_stores key value w :
  setCache host key value w =
  (Returned tt,
   with_cache (insert key (mkEntry value (clock host (ticks w)))) (ticked w)).
Proof. reflexivity. Qed.

Lemma invalidateCache_key key w :
  key <> [] ->
  invalidateCache (Some key) w = (Returned tt, with_cache (delete key) w).
Proof. by destruct key. Qed.

Lemma invalidateCache_all w :
  invalidateCache None w = (Returned tt, with_cache (fun _ => ∅) w).
Proof. reflexivity. Qed.

Lemma run_op_keeps_absent key op w :
  cache w !! key = None ->
  cache (run_op host op w) !! key = None.
Proof.
  intros Hnone. destruct op as [k|[k|]]; unfold run_op.
  - destruct (getCached_effect k w)
      as (v & w' & -> & _ & [Hsame|(e & _ & _ & _ & Hdel)]); cbn.
    + by rewrite Hsame.
    + rewrite Hdel. destruct (decide (k = key)) as [->|Hne].
      * apply lookup_delete_eq.
      * by rewrite lookup_delete_ne.
  - destruct k as [|c k]; cbn.
    + apply lookup_empty.
    + destruct (decide (c :: k = key)) as [->|Hne].
      * apply lookup_delete_eq.
      * by rewrite lookup_delete_ne.
  - apply lookup_empty.
Qed.

Lemma run_ops_keep_absent key ops : forall w,
  cache w !! key = None ->
  cache (run_ops host ops w) !! key = None.
Proof.
  induction ops as [|op ops IH]; intros w Hnone; [done|].
  cbn. apply IH. by apply run_op_keeps_absent.
Qed.

End CacheFacts.

(** C4. A lookup of [key] made after [setCache key value], with no write to
    that key in between and while the clock reads at most [CACHE_TTL_MS]
    (120000 ms) past the time of storing, returns exactly [value]; the
    store is left as it was. *)
Theorem getCached_after_setCache host key value w0 w :
  cache w !! key = cache (snd (setCache host key value w0)) !! key ->
  clock host (ticks w) - clock host (ticks w0) <= 120000 ->
  cache (snd (setCache host key value w0)) !! key
    = Some (mkEntry value (clock host (ticks w0))) /\
  getCached host key w = (Returned value, ticked w).
Proof.
  intros Hkept Hage. rewrite setCache_stores in *. cbn in *.
  rewrite lookup_insert_eq in Hkept. split; [apply lookup_insert_eq|].
  apply (getCached_fresh host key (mkEntry value (clock host (ticks w0))) w);
    [done|]. cbn. rewrite ttl_value. lia.
Qed.

(** C4, run: a value stored at 0 ms and read back at 1000 ms. *)
Lemma getCached_after_setCache_witness :
  let host := steady_host JNull accepted in
  let value := JArr [JStr (str "TSYS Case1")] in
  let w1 := snd (setCache host (str "getCases") value empty_world) in
  clock host (ticks w1) - clock host (ticks empty_world) <= 120000 /\
  cache w1 !! str "getCases" = Some (mkEntry value 0) /\
  getCached host (str "getCases") w1 = (Returned value, ticked w1).
Proof.
  intros host value w1.
  assert (Hage : clock host (ticks w1) - clock host (ticks empty_world) <= 120000)
    by (cbn; lia).
  split; [exact Hage|].
  exact (getCached_after_setCache host (str "getCases") value empty_world w1
           eq_refl Hage).
Defined.

(** C5. A lookup of a key whose entry was stored strictly more than
    [CACHE_TTL_MS] ago returns null (absent) and deletes that entry; after
    it, whatever further lookups and invalidations run (nothing that
    stores), a lookup of the key again returns null. *)
Theorem getCached_expired_removes host key entry w ops :
  cache w !! key = Some entry ->
  clock host (ticks w) - timestamp entry > CACHE_TTL_MS ->
  fst (getCached host key w) = Returned JNull /\
  cache (snd (getCached host key w)) = delete key (cache w) /\
  cache (snd (getCached host key w)) !! key = None /\
  fst (getCached host key (run_ops host ops (snd (getCached host key w))))
    = Returned JNull.
Proof.
  intros Hsome Hage. rewrite (getCached_expired host key entry w) by done.
  split; [done|]. split; [done|]. split; [apply lookup_delete_eq|].
  rewrite getCached_absent; [done|].
  apply run_ops_keep_absent. apply lookup_delete_eq.
Qed.

(** C5, run: an entry stored at 0 ms, looked up when the clock reads
    121000 ms, then twice more with an invalidation of another key in
    between. *)
Lemma getCached_expired_removes_witness :
  let host := steady_host JNull accepted in
  let w := mkWorld {[ str "getCases" := mkEntry (JArr []) 0 ]} 121 [] in
  fst (getCached host (str "getCases") w) = Returned JNull /\
  cache (snd (getCached host (str "getCases") w))
    = delete (str "getCases") (cache w) /\
  cache (snd (getCached host (str "getCases") w)) !! str "getCases" = None /\
  fst (getCached host (str "getCases")
         (run_ops host [OpGet (str "getCases");
                        OpInvalidate (Some (str "getLiveStock"))]
            (snd (getCached host (str "getCases") w))))
    = Returned JNull.
Proof.
  intros host w.
  apply (getCached_expired_removes host (str "getCases") (mkEntry (JArr []) 0) w).
  - apply lookup_singleton_eq.
  - cbn. unfold CACHE_TTL_MS. lia.
Defined.

(** C6 as stated fails for the empty key: it is falsy, so
    [invalidateCache] of it takes the branch that clears the whole store and
    the entry of another key is lost. *)
Lemma invalidateCache_empty_key_clears :
  let w := mkWorld {[ str "getCases" := mkEntry (JArr []) 0 ]} 0 [] in
  str "getCases" <> [] /\
  cache w !! str "getCases" = Some (mkEntry (JArr []) 0) /\
  cache (snd (invalidateCache (Some []) w)) !! str "getCases" = None.
Proof.
  intros w. split; [discriminate|].
  split; [apply lookup_singleton_eq | apply lookup_empty].
Qed.

(** C6, amended. For a non-empty key, [invalidateCache(key)] returns
    without raising, deletes at most the entry of [key] and leaves every
    other key's entry (value and timestamp) as it was; if [key] has no
    entry the world is unchanged. With no key, and with the empty string
    as key, it removes every entry. *)
Theorem invalidateCache_frame key w :
  key <> [] ->
  invalidateCache (Some key) w = (Returned tt, with_cache (delete key) w) /\
  (forall other, other <> key ->
     cache (snd (invalidateCache (Some key) w)) !! other = cache w !! other) /\
  cache (snd (invalidateCache (Some key) w)) !! key = None /\
  (cache w !! key = None -> invalidateCache (Some key) w = (Returned tt, w)) /\
  invalidateCache None w = (Returned tt, with_cache (fun _ => ∅) w) /\
  invalidateCache (Some []) w = (Returned tt, with_cache (fun _ => ∅) w) /\
  (forall other, cache (snd (invalidateCache None w)) !! other = None).
Proof.
  intros Hkey. rewrite invalidateCache_key by done. cbn.
  repeat split.
  - intros other Hne. by rewrite lookup_delete_ne.
  - apply lookup_delete_eq.
  - intros Hnone. unfold with_cache.
    rewrite delete_id by done. by rewrite world_eta.
Qed.

(** C6, run: invalidating ["getLiveStock"] next to an entry of
    ["getCases"]. *)
Lemma invalidateCache_frame_witness :
  let w := mkWorld {[ str "getCases" := mkEntry (JArr []) 0 ]} 0 [] in
  cache (snd (invalidateCache (Some (str "getLiveStock")) w)) !! str "getCases"
    = Some (mkEntry (JArr []) 0).
Proof.
  intros w.
  destruct (invalidateCache_frame (str "getLiveStock") w) as (_ & Hframe & _);
    [discriminate|].
  rewrite Hframe; [apply lookup_singleton_eq | discriminate].
Defined.

(* ------------------------------------------------------------------------- *)
(** ** Trimming and validation *)

Lemma trimStart_nil s : trimStart s = [] <-> forallb strippable s = true.
Proof.
  induction s as [|c s IH]; cbn; [done|].
  destruct (strippable c); cbn; [done|]. split; discriminate.
Qed.

Lemma trimStart_head s c rest : trimStart s = c :: rest -> strippable c = false.
Proof.
  induction s as [|d s IH]; cbn; [discriminate|].
  destruct (strippable d) eqn:Hd; [done|]. by intros [= <- _].
Qed.

Lemma trimStart_split s :
  exists pre, s = pre ++ trimStart s /\ forallb strippable pre = true.
Proof.
  induction s as [|c s (pre & Hs & Hpre)]; cbn.
  - by exists [].
  - destruct (strippable c) eqn:Hc.
    + exists (c :: pre). cbn. rewrite Hc, Hpre. split; [by f_equal|done].
    + by exists [].
Qed.

Lemma forallb_rev {A} (p : A -> bool) (l : list A) :
  forallb p (rev l) = forallb p l.
Proof.
  induction l as [|a l IH]; cbn; [done|].
  rewrite forallb_app, IH. cbn. rewrite andb_true_r. apply andb_comm.
Qed.

Lemma trimEnd_nil s : trimEnd s = [] <-> forallb strippable s = true.
Proof.
  unfold trimEnd. rewrite <- (forallb_rev strippable s), <- trimStart_nil.
  split; intros H.
  - apply (f_equal (@rev N)) in H. by rewrite rev_involutive in H.
  - by rewrite H.
Qed.

Lemma trimEnd_split s :
  exists post, s = trimEnd s ++ post /\ forallb strippable post = true.
Proof.
  destruct (trimStart_split (rev s)) as (pre & Hs & Hpre).
  exists (rev pre). split.
  - apply (f_equal (@rev N)) in Hs. rewrite rev_involutive, rev_app_distr in Hs.
    exact Hs.
  - by rewrite forallb_rev.
Qed.

Lemma trimEnd_last s c init : trimEnd s = init ++ [c] -> strippable c = false.
Proof.
  unfold trimEnd. intros H. apply (f_equal (@rev N)) in H.
  rewrite rev_involutive, rev_app_distr in H. cbn in H.
  by apply trimStart_head in H.
Qed.

Lemma trim_stripped s : stripped_of s (trim s).
Proof.
  unfold trim.
  destruct (trimStart_split s) as (pre & Hs & Hpre).
  destruct (trimEnd_split (trimStart s)) as (post & Ht & Hpost).
  exists pre, post. split; [by rewrite <- Ht|]. split; [done|]. split; [done|].
  split.
  - intros c rest Hc. rewrite Hc in Ht. cbn in Ht.
    by apply trimStart_head in Ht.
  - intros c init. apply trimEnd_last.
Qed.

(** A string is rejected exactly when it has nothing but white space and
    line terminators in it (the empty string included). *)
Lemma blank_spec s : blank s = true <-> forallb strippable s = true.
Proof.
  unfold blank. split.
  - intros H. apply orb_true_iff in H as [H|H].
    + by destruct s.
    + assert (Ht : trim s = []) by (by destruct (trim s)).
      unfold trim in Ht. apply trimEnd_nil in Ht.
      destruct (trimStart s) as [|c rest] eqn:Hs.
      * by apply trimStart_nil.
      * apply trimStart_head in Hs. cbn in Ht. by rewrite Hs in Ht.
  - intros H. apply trimStart_nil in H. unfold trim. rewrite H.
    apply orb_true_r.
Qed.

Lemma blank_empty : blank [] = true.
Proof. reflexivity. Qed.

(** A number is accepted exactly when it is a finite integer, one or
    more. *)
Lemma positive_integer_spec value :
  positive_integer value = true <->
  exists q z, value = Finite q /\ Qnum q = z * Zpos (Qden q) /\ 1 <= z.
Proof.
  unfold positive_integer. rewrite negb_true_iff, orb_false_iff, negb_false_iff.
  split.
  - intros [Hint Hlt]. destruct value as [| | |q]; try discriminate.
    cbn in Hint, Hlt. apply Z.eqb_eq in Hint. apply Z.ltb_ge in Hlt.
    exists q, (Qnum q / Zpos (Qden q)). split; [done|].
    apply Z.rem_divide in Hint as [k Hk]; [|done].
    rewrite Hk, Z.div_mul by done. split; [done|]. nia.
  - intros (q & z & -> & Hq & Hz). cbn. rewrite Hq. split.
    + apply Z.eqb_eq. by rewrite Z.rem_mul.
    + apply Z.ltb_ge. nia.
Qed.

Lemma positive_integer_of_Z z : positive_integer (of_Z z) = true <-> 1 <= z.
Proof.
  rewrite positive_integer_spec. split.
  - intros (q & k & [= <-] & Hq & Hk). cbn in Hq. lia.
  - intros Hz. exists (Qmake z 1), z. cbn. split; [done|]. lia.
Qed.

Lemma validateNotEmpty_rejects value fieldName w :
  blank value = true ->
  validateNotEmpty value fieldName w
    = (Thrown (Error (fieldName ++ str " is required.")), w).
Proof. unfold validateNotEmpty, blank. by intros ->. Qed.

Lemma validateNotEmpty_accepts value fieldName w :
  blank value = false ->
  validateNotEmpty value fieldName w = (Returned tt, w).
Proof. unfold validateNotEmpty, blank. by intros ->. Qed.

Lemma validatePositiveInt_rejects value fieldName w :
  positive_integer value = false ->
  validatePositiveInt value fieldName w
    = (Thrown (Error (fieldName ++ str " must be a positive integer.")), w).
Proof.
  unfold validatePositiveInt, positive_integer. rewrite negb_false_iff.
  by intros ->.
Qed.

Lemma validatePositiveInt_accepts value fieldName w :
  positive_integer value = true ->
  validatePositiveInt value fieldName w = (Returned tt, w).
Proof.
  unfold validatePositiveInt, positive_integer. rewrite negb_true_iff.
  by intros ->.
Qed.

(* ------------------------------------------------------------------------- *)
(** ** The request helpers *)

Section RequestFacts.

Context (host : Host).

Lemma decode_pure {T} (res : FetchResult T) w :
  decode host res w = (fst (decode host res w), w).
Proof.
  destruct res as [reason|status statusText body]; cbn; [done|].
  by destruct (ok status).
Qed.

Lemma decode_outcome {T} (res : FetchResult T) w1 w2 :
  fst (decode host res w1) = fst (decode host res w2).
Proof.
  destruct res as [reason|status statusText body]; cbn; [done|].
  by destruct (ok status).
Qed.

Lemma decode_ok {T} status statusText (body : Completion T) w :
  ok status = true ->
  decode host (Response status statusText body) w = (body, w).
Proof. cbn. by intros ->. Qed.

(** [get] leaves the store and the clock alone; with a valid endpoint it
    hands exactly one request to [fetch], otherwise none. *)
Lemma get_effect params w :
  exists r,
    get host params w
      = (r, mkWorld (cache w) (ticks w)
              (sent w ++ match BASE_URL_invalid host with
                         | None => [GET params]
                         | Some _ => []
                         end)).
Proof.
  unfold get. destruct (BASE_URL_invalid host) as [e|].
  - exists (Thrown e). unfold throw. by rewrite app_nil_r, world_eta.
  - unfold bind, fetch_get. rewrite decode_pure. by eexists.
Qed.

Lemma get_outcome params w1 w2 :
  sent w1 = sent w2 ->
  fst (get host params w1) = fst (get host params w2).
Proof.
  intros Hsent. unfold get. destruct (BASE_URL_invalid host); [done|].
  unfold bind, fetch_get. rewrite Hsent.
  rewrite (decode_pure _ (mkWorld (cache w1) _ _)).
  rewrite (decode_pure _ (mkWorld (cache w2) _ _)).
  apply decode_outcome.
Qed.

Lemma post_effect body w :
  post host body w
    = (fst (decode host (served_post host (length (sent w)) body) w),
       mkWorld (cache w) (ticks w) (sent w ++ [POST body])).
Proof.
  unfold post, bind, fetch_post. rewrite decode_pure. f_equal.
  apply decode_outcome.
Qed.

Lemma post_ok body w status statusText reply :
  served_post host (length (sent w)) body
    = Response status statusText (Returned reply) ->
  ok status = true ->
  post host body w
    = (Returned reply, mkWorld (cache w) (ticks w) (sent w ++ [POST body])).
Proof.
  intros Hserved Hok. rewrite post_effect, Hserved. cbn. by rewrite Hok.
Qed.

End RequestFacts.

(* ------------------------------------------------------------------------- *)
(** ** The cached read wrapper *)

Section CachedGetFacts.

Context (host : Host).

Lemma cachedGet_hit key params entry w :
  cache w !! key = Some entry ->
  clock host (ticks w) - timestamp entry <= CACHE_TTL_MS ->
  truthy (data entry) = true ->
  cachedGet host key params w = (Returned (data entry), ticked w).
Proof.
  intros Hsome Hage Htruthy. unfold cachedGet, bind.
  rewrite (getCached_fresh host key entry w) by done. by rewrite Htruthy.
Qed.

Lemma cachedGet_miss key params w :
  served_from_cache host key w = false ->
  cachedGet host key params w
    = fetch_and_store host key params (snd (getCached host key w)).
Proof.
  unfold served_from_cache. intros Hmiss. unfold cachedGet at 1, bind at 1.
  destruct (cache w !! key) as [entry|] eqn:Hlook.
  - destruct (Z_le_gt_dec (clock host (ticks w) - timestamp entry) CACHE_TTL_MS)
      as [Hage|Hage].
    + rewrite (getCached_fresh host key entry w) by done.
      destruct (Z.gtb_spec (clock host (ticks w) - timestamp entry) CACHE_TTL_MS);
        [lia|]. cbn in Hmiss. by rewrite Hmiss.
    + by rewrite (getCached_expired host key entry w).
  - by rewrite getCached_absent.
Qed.

Lemma fetch_and_store_failure key params w e :
  fst (get host params w) = Thrown e ->
  fst (fetch_and_store host key params w) = Thrown e /\
  cache (snd (fetch_and_store host key params w)) = cache w.
Proof.
  unfold fetch_and_store, bind.
  destruct (get_effect host params w) as [r ->]. cbn. by intros ->.
Qed.

Lemma fetch_and_store_success key params w value :
  fst (get host params w) = Returned value ->
  BASE_URL_invalid host = None /\
  fetch_and_store host key params w
    = (Returned value,
       mkWorld (<[key := mkEntry value (clock host (ticks w))]> (cache w))
         (S (ticks w)) (sent w ++ [GET params])).
Proof.
  unfold fetch_and_store, bind.
  destruct (get_effect host params w) as [r Hget]. rewrite Hget. cbn.
  intros ->. revert Hget. unfold get.
  destruct (BASE_URL_invalid host); [discriminate|]. done.
Qed.

(** [cachedGet] hands at most one request to [fetch]. *)
Lemma cachedGet_sent key params w :
  sent (snd (cachedGet host key params w)) = sent w \/
  sent (snd (cachedGet host key params w)) = sent w ++ [GET params].
Proof.
  destruct (getCached_effect host key w) as (v & w1 & Hlook & Hsent & _).
  unfold cachedGet, bind. rewrite Hlook.
  destruct (truthy v); [by left|].
  destruct (get_effect host params w1) as [r ->].
  rewrite Hsent.
  destruct r as [value|e], (BASE_URL_invalid host); cbn;
    rewrite ?app_nil_r; auto.
Qed.

(** [cachedGet] leaves the entries of all other keys alone. *)
Lemma cachedGet_other key params w other :
  other <> key ->
  cache (snd (cachedGet host key params w)) !! other = cache w !! other.
Proof.
  intros Hne.
  destruct (getCached_effect host key w) as (v & w1 & Hlook & _ & Hcache).
  assert (Hw1 : cache w1 !! other = cache w !! other).
  { destruct Hcache as [->|(entry & _ & _ & _ & ->)]; [done|].
    by rewrite lookup_delete_ne. }
  unfold cachedGet, bind. rewrite Hlook.
  destruct (truthy v); [done|].
  destruct (get_effect host params w1) as [r ->].
  destruct r as [value|e]; cbn; [|done].
  by rewrite lookup_insert_ne.
Qed.

(** A miss that fetched a truthy value, then a call while the new entry is
    fresh: the second call is answered from the store. *)
Lemma cachedGet_twice key params w value :
  served_from_cache host key w = false ->
  fst (cachedGet host key params w) = Returned value ->
  truthy value = true ->
  (forall entry,
     cache (snd (cachedGet host key params w)) !! key = Some entry ->
     clock host (ticks (snd (cachedGet host key params w))) - timestamp entry
       <= CACHE_TTL_MS) ->
  fst (cachedGet host key params (snd (cachedGet host key params w)))
    = Returned value /\
  sent (snd (cachedGet host key params (snd (cachedGet host key params w))))
    = sent w ++ [GET params].
Proof.
  intros Hmiss Hfirst Htruthy Hwithin.
  assert (Hcall : exists storedAt store n,
             cachedGet host key params w
             = (Returned value,
                mkWorld (<[key := mkEntry value storedAt]> store) n
                  (sent w ++ [GET params]))).
  { rewrite cachedGet_miss in * by done.
    destruct (getCached_effect host key w) as (v & w1 & Hlook & Hsent & _).
    rewrite Hlook in *. cbn [snd] in *.
    assert (Hget : fst (get host params w1) = Returned value).
    { revert Hfirst. unfold fetch_and_store, bind.
      destruct (get_effect host params w1) as [r ->].
      destruct r; cbn; [done|discriminate]. }
    destruct (fetch_and_store_success key _ _ _ Hget) as [_ ->].
    rewrite Hsent. by eexists _, _, _. }
  destruct Hcall as (storedAt & store & n & Hcall).
  rewrite Hcall in *. cbn [snd] in *.
  rewrite (cachedGet_hit key params (mkEntry value storedAt)).
  - done.
  - apply lookup_insert_eq.
  - apply Hwithin. apply lookup_insert_eq.
  - done.
Qed.

End CachedGetFacts.

(** C3 as stated fails for a falsy cached value: the backend answers
    [null], the first [fetchLiveStock] stores it, and the second one, one
    second later, finds the entry but takes [if (hit)] for a miss and
    fetches again. *)
Lemma fetchLiveStock_null_refetched :
  let host := steady_host JNull accepted in
  let w1 := snd (fetchLiveStock host empty_world) in
  let w2 := snd (fetchLiveStock host w1) in
  cache w1 !! str "getLiveStock" = Some (mkEntry JNull 0) /\
  clock host (ticks w1) - 0 <= CACHE_TTL_MS /\
  sent w1 = [GET [(str "action", str "getLiveStock")]] /\
  sent w2 = [GET [(str "action", str "getLiveStock")];
             GET [(str "action", str "getLiveStock")]].
Proof.
  intros host w1 w2. split; [|split; [|split]].
  - subst w1. unfold fetchLiveStock.
    rewrite cachedGet_miss by reflexivity.
    rewrite getCached_absent by apply lookup_empty.
    apply lookup_insert_eq.
  - subst w1. unfold fetchLiveStock.
    rewrite cachedGet_miss by reflexivity.
    rewrite getCached_absent by apply lookup_empty.
    cbn. unfold CACHE_TTL_MS. lia.
  - reflexivity.
  - reflexivity.
Qed.

(** C3, amended. For every key whose cached value is truthy (every array
    and object is) and was stored within the last [CACHE_TTL_MS],
    [cachedGet] returns the cached value and hands nothing to [fetch]: the
    store and the list of requests are unchanged. In particular, when a
    first [fetchLiveStock] is not served from the cache and returns a
    truthy value, a second one made while that entry is within the TTL
    returns the same value without a request, so the two calls issue
    exactly one request in total. *)
Theorem cachedGet_serves_fresh host :
  (forall key params entry w,
     cache w !! key = Some entry ->
     clock host (ticks w) - timestamp entry <= CACHE_TTL_MS ->
     truthy (data entry) = true ->
     cachedGet host key params w = (Returned (data entry), ticked w)) /\
  (forall w value,
     served_from_cache host (str "getLiveStock") w = false ->
     fst (fetchLiveStock host w) = Returned value ->
     truthy value = true ->
     (forall entry,
        cache (snd (fetchLiveStock host w)) !! str "getLiveStock" = Some entry ->
        clock host (ticks (snd (fetchLiveStock host w))) - timestamp entry
          <= CACHE_TTL_MS) ->
     fst (fetchLiveStock host (snd (fetchLiveStock host w))) = Returned value /\
     sent (snd (fetchLiveStock host (snd (fetchLiveStock host w))))
       = sent w ++ [GET [(str "action", str "getLiveStock")]]).
Proof.
  split; [apply cachedGet_hit | intros; by apply cachedGet_twice].
Qed.

(** C3, run: a stock list stored at 0 ms and asked for again at 1000 ms,
    and two calls in a row on a cold cache. *)
Lemma cachedGet_serves_fresh_witness :
  let host := steady_host (JArr [JStr (str "MG996R Servo")]) accepted in
  cachedGet host (str "getLiveStock") [(str "action", str "getLiveStock")]
    (mkWorld {[ str "getLiveStock" := mkEntry (JArr []) 0 ]} 1 [])
  = (Returned (JArr []),
     mkWorld {[ str "getLiveStock" := mkEntry (JArr []) 0 ]} 2 []) /\
  sent (snd (fetchLiveStock host (snd (fetchLiveStock host empty_world))))
  = [GET [(str "action", str "getLiveStock")]].
Proof.
  intros host. destruct (cachedGet_serves_fresh host) as [Hhit Htwice]. split.
  - refine (Hhit (str "getLiveStock") [(str "action", str "getLiveStock")]
              (mkEntry (JArr []) 0)
              (mkWorld {[ str "getLiveStock" := mkEntry (JArr []) 0 ]} 1 [])
              _ _ _).
    + apply lookup_singleton_eq.
    + cbn. unfold CACHE_TTL_MS. lia.
    + reflexivity.
  - apply (Htwice empty_world (JArr [JStr (str "MG996R Servo")])).
    + reflexivity.
    + reflexivity.
    + reflexivity.
    + intros entry. unfold fetchLiveStock.
      rewrite cachedGet_miss by reflexivity.
      rewrite getCached_absent by apply lookup_empty.
      cbn [snd fetch_and_store]. intros Hentry.
      assert (Hstored : entry = mkEntry (JArr [JStr (str "MG996R Servo")]) 0).
      { revert Hentry. unfold fetch_and_store, bind. cbn.
        rewrite lookup_insert_eq. by intros [= <-]. }
      rewrite Hstored. cbn. unfold CACHE_TTL_MS. lia.
Defined.

(** C8 as stated fails when the miss is an expired entry: the lookup
    deletes it before the fetch, so after the failed call the store is not
    what it was. *)
Lemma cachedGet_failure_drops_expired :
  let host := mkHost print_number None (fun _ => 200000)
                (fun _ _ => Rejected (TypeError (str "Failed to fetch")))
                (fun _ _ => accepted) in
  let w := mkWorld {[ str "getCases" := mkEntry (JArr []) 0 ]} 0 [] in
  fst (cachedGet host (str "getCases") [(str "action", str "getCases")] w)
    = Thrown (TypeError (str "Failed to fetch")) /\
  cache w !! str "getCases" = Some (mkEntry (JArr []) 0) /\
  cache (snd (cachedGet host (str "getCases") [(str "action", str "getCases")] w))
    !! str "getCases" = None /\
  cache (snd (cachedGet host (str "getCases") [(str "action", str "getCases")] w))
    <> cache w.
Proof.
  intros host w.
  assert (Hmiss : served_from_cache host (str "getCases") w = false)
    by reflexivity.
  assert (Hold : cache w !! str "getCases" = Some (mkEntry (JArr []) 0))
    by apply lookup_singleton_eq.
  assert (Hnew : cache (snd (cachedGet host (str "getCases")
                               [(str "action", str "getCases")] w))
                   !! str "getCases" = None).
  { rewrite cachedGet_miss by done.
    rewrite (getCached_expired host _ _ w Hold) by (cbn; unfold CACHE_TTL_MS; lia).
    apply lookup_delete_eq. }
  split; [reflexivity|]. split; [done|]. split; [done|].
  intros Heq. rewrite Heq, Hold in Hnew. discriminate.
Qed.

(** C8, amended. When [cachedGet] is not served from the cache and the
    fetch fails, the failure reaches the caller and nothing is written:
    the entries of all other keys are as before, and the store is the one
    the lookup left, which is the store before the call except that an
    expired entry of that key has been deleted. *)
Theorem cachedGet_failure_uncached host key params w e :
  served_from_cache host key w = false ->
  fst (get host params w) = Thrown e ->
  fst (cachedGet host key params w) = Thrown e /\
  cache (snd (cachedGet host key params w)) = cache (snd (getCached host key w)) /\
  (cache (snd (cachedGet host key params w)) = cache w \/
   exists entry,
     cache w !! key = Some entry /\
     clock host (ticks w) - timestamp entry > CACHE_TTL_MS /\
     cache (snd (cachedGet host key params w)) = delete key (cache w)) /\
  (forall k entry,
     cache (snd (cachedGet host key params w)) !! k = Some entry ->
     cache w !! k = Some entry).
Proof.
  intros Hmiss Hfail. rewrite cachedGet_miss by done.
  destruct (getCached_effect host key w) as (v & w1 & Hlook & Hsent & Hcache).
  rewrite Hlook. cbn [snd].
  rewrite (get_outcome host params w w1) in Hfail by done.
  destruct (fetch_and_store_failure host key params w1 e Hfail) as [-> ->].
  split; [done|]. split; [done|].
  assert (Hshape : cache w1 = cache w \/
                   exists entry, cache w !! key = Some entry /\
                     clock host (ticks w) - timestamp entry > CACHE_TTL_MS /\
                     cache w1 = delete key (cache w)).
  { destruct Hcache as [?|(entry & ? & ? & _ & ?)]; [by left|].
    right. by exists entry. }
  split; [done|].
  intros k entry. destruct Hshape as [->|(old & _ & _ & ->)]; [done|].
  intros Hk. apply lookup_delete_Some in Hk. tauto.
Qed.

(** C8, run: a cold cache and a backend that answers 500. *)
Lemma cachedGet_failure_uncached_witness :
  let host := mkHost print_number None (fun _ => 0)
                (fun _ _ => Response 500 (str "Internal Server Error")
                              (Returned JNull))
                (fun _ _ => accepted) in
  fst (cachedGet host (str "getCases") [(str "action", str "getCases")]
         empty_world)
    = Thrown (Error (str "Request failed: 500 Internal Server Error")) /\
  cache (snd (cachedGet host (str "getCases") [(str "action", str "getCases")]
                empty_world)) = ∅.
Proof.
  intros host.
  destruct (cachedGet_failure_uncached host (str "getCases")
              [(str "action", str "getCases")] empty_world
              (Error (str "Request failed: 500 Internal Server Error")))
    as (Hthrown & Hstore & _).
  - reflexivity.
  - reflexivity.
  - split; [exact Hthrown|]. rewrite Hstore.
    by rewrite getCached_absent by apply lookup_empty.
Defined.

(* ------------------------------------------------------------------------- *)
(** ** The API functions *)

Section ApiFacts.

Context (host : Host).

Lemma ValidationError_required fieldName :
  In fieldName [str "User ID"; str "Case name"; str "Component"; str "Quantity"] ->
  ValidationError (Error (fieldName ++ str " is required.")).
Proof. intros Hin. exists fieldName. auto. Qed.

Lemma ValidationError_positive fieldName :
  In fieldName [str "User ID"; str "Case name"; str "Component"; str "Quantity"] ->
  ValidationError (Error (fieldName ++ str " must be a positive integer.")).
Proof. intros Hin. exists fieldName. auto. Qed.

(** The validation in front of [borrowComponent], check by check. *)
Lemma borrowComponent_cases userId caseName component quantity w :
  borrowComponent host userId caseName component quantity w =
  if blank userId
  then (Thrown (Error (str "User ID" ++ str " is required.")), w)
  else if blank caseName
  then (Thrown (Error (str "Case name" ++ str " is required.")), w)
  else if blank component
  then (Thrown (Error (str "Component" ++ str " is required.")), w)
  else if negb (positive_integer quantity)
  then (Thrown (Error (str "Quantity" ++ str " must be a positive integer.")), w)
  else after_borrow_validation host caseName component quantity
         (post host (borrow_body userId caseName component quantity)) w.
Proof.
  unfold borrowComponent, after_borrow_validation, borrow_body.
  unfold bind at 1, validateNotEmpty at 1. fold (blank userId).
  destruct (blank userId); [done|].
  unfold bind at 1, validateNotEmpty at 1. fold (blank caseName).
  destruct (blank caseName); [done|].
  unfold bind at 1, validateNotEmpty at 1. fold (blank component).
  destruct (blank component); [done|].
  unfold bind at 1, validatePositiveInt, positive_integer.
  by destruct (negb (Number_isInteger quantity) || lt_one quantity)%bool.
Qed.

(** The validation in front of [returnComponent], check by check. *)
Lemma returnComponent_cases userId component quantity w :
  returnComponent host userId component quantity w =
  if blank userId
  then (Thrown (Error (str "User ID" ++ str " is required.")), w)
  else if blank component
  then (Thrown (Error (str "Component" ++ str " is required.")), w)
  else if negb (positive_integer quantity)
  then (Thrown (Error (str "Quantity" ++ str " must be a positive integer.")), w)
  else after_return_validation host component quantity
         (post host (return_body userId component quantity)) w.
Proof.
  unfold returnComponent, after_return_validation, return_body.
  unfold bind at 1, validateNotEmpty at 1. fold (blank userId).
  destruct (blank userId); [done|].
  unfold bind at 1, validateNotEmpty at 1. fold (blank component).
  destruct (blank component); [done|].
  unfold bind at 1, validatePositiveInt, positive_integer.
  by destruct (negb (Number_isInteger quantity) || lt_one quantity)%bool.
Qed.

Lemma fetchComponentsByCase_cases caseName w :
  fetchComponentsByCase host caseName w =
  if blank caseName
  then (Thrown (Error (str "Case name" ++ str " is required.")), w)
  else cachedGet host (str "getComponents:" ++ caseName)
         [(str "action", str "getComponents"); (str "case", caseName)] w.
Proof.
  unfold fetchComponentsByCase.
  unfold bind at 1, validateNotEmpty at 1. fold (blank caseName).
  by destruct (blank caseName).
Qed.

Lemma fetchUserHoldings_cases userId w :
  fetchUserHoldings host userId w =
  if blank userId
  then (Thrown (Error (str "User ID" ++ str " is required.")), w)
  else get host [(str "action", str "getUserHoldings");
                 (str "userId", trim userId)] w.
Proof.
  unfold fetchUserHoldings.
  unfold bind at 1, validateNotEmpty at 1. fold (blank userId).
  by destruct (blank userId).
Qed.

Lemma keys_differ caseName :
  str "getComponents:" ++ caseName <> str "getLiveStock".
Proof. intros Heq. cbv in Heq. discriminate. Qed.

Lemma absent_not_served key w :
  cache w !! key = None -> served_from_cache host key w = false.
Proof. unfold served_from_cache. by intros ->. Qed.

(** A read that is not served from the cache goes to the network. *)
Lemma cachedGet_miss_sends key params w :
  served_from_cache host key w = false ->
  BASE_URL_invalid host = None ->
  sent (snd (cachedGet host key params w)) = sent w ++ [GET params].
Proof.
  intros Hmiss Hurl. rewrite cachedGet_miss by done.
  destruct (getCached_effect host key w) as (v & w1 & -> & <- & _). cbn [snd].
  unfold fetch_and_store, bind.
  destruct (get_effect host params w1) as [r ->]. rewrite Hurl.
  by destruct r.
Qed.

(** [borrowComponent] once validation has passed and the backend has
    answered with a 2xx reply that parses. *)
Lemma borrowComponent_replied userId caseName component quantity w
    status statusText reply :
  blank userId = false -> blank caseName = false -> blank component = false ->
  positive_integer quantity = true ->
  served_post host (length (sent w))
    (borrow_body userId caseName component quantity)
    = Response status statusText (Returned reply) ->
  ok status = true ->
  borrowComponent host userId caseName component quantity w
  = let posted := mkWorld (cache w) (ticks w)
                    (sent w ++ [POST (borrow_body userId caseName component quantity)]) in
    if truthy (error reply)
    then (Returned (mkResult false (default [] (error reply))), posted)
    else (Returned (mkResult true
                      (str "Successfully borrowed " ++ Number_toString host quantity
                       ++ str "x " ++ component ++ str "!")),
          with_cache (fun c => delete (str "getComponents:" ++ caseName)
                                 (delete (str "getLiveStock") c)) posted).
Proof.
  intros Hu Hc Hcomp Hq Hserved Hok.
  rewrite borrowComponent_cases, Hu, Hc, Hcomp, Hq. cbn [negb].
  unfold after_borrow_validation, bind at 1.
  rewrite (post_ok host _ w status statusText reply) by done.
  destruct (truthy (error reply)); [done|].
  unfold bind. rewrite invalidateCache_key by (cbv; discriminate).
  rewrite invalidateCache_key by (cbv; discriminate). done.
Qed.

(** [returnComponent], likewise. *)
Lemma returnComponent_replied userId component quantity w
    status statusText reply :
  blank userId = false -> blank component = false ->
  positive_integer quantity = true ->
  served_post host (length (sent w)) (return_body userId component quantity)
    = Response status statusText (Returned reply) ->
  ok status = true ->
  returnComponent host userId component quantity w
  = let posted := mkWorld (cache w) (ticks w)
                    (sent w ++ [POST (return_body userId component quantity)]) in
    if truthy (error reply)
    then (Returned (mkResult false (default [] (error reply))), posted)
    else (Returned (mkResult true
                      (str "Successfully returned " ++ Number_toString host quantity
                       ++ str "x " ++ component ++ str "!")),
          with_cache (delete (str "getLiveStock")) posted).
Proof.
  intros Hu Hcomp Hq Hserved Hok.
  rewrite returnComponent_cases, Hu, Hcomp, Hq. cbn [negb].
  unfold after_return_validation, bind at 1.
  rewrite (post_ok host _ w status statusText reply) by done.
  destruct (truthy (error reply)); [done|].
  unfold bind. by rewrite invalidateCache_key by (cbv; discriminate).
Qed.

End ApiFacts.

(** C1. When the arguments pass validation and the backend's reply to the
    POST carries no [error] field, [borrowComponent] returns
    [{success: true, message: "Successfully borrowed <quantity>x <component>!"}]
    and deletes exactly the entries of ["getLiveStock"] and
    ["getComponents:" + caseName]: every other entry stays. A following
    [fetchLiveStock], and a following [fetchComponentsByCase caseName]
    (also after that [fetchLiveStock]), is then not served from the cache
    and, the endpoint URL being valid, hands a GET to [fetch]. *)
Theorem borrowComponent_success host userId caseName component quantity w
    status statusText flag :
  blank userId = false -> blank caseName = false -> blank component = false ->
  positive_integer quantity = true ->
  served_post host (length (sent w))
    (borrow_body userId caseName component quantity)
    = Response status statusText (Returned (mkPostReply flag None)) ->
  ok status = true ->
  let stock := str "getLiveStock" in
  let components := str "getComponents:" ++ caseName in
  let w' := snd (borrowComponent host userId caseName component quantity w) in
  fst (borrowComponent host userId caseName component quantity w)
    = Returned (mkResult true
                  (str "Successfully borrowed " ++ Number_toString host quantity
                   ++ str "x " ++ component ++ str "!")) /\
  cache w' = delete components (delete stock (cache w)) /\
  (forall other, other <> stock -> other <> components ->
     cache w' !! other = cache w !! other) /\
  served_from_cache host stock w' = false /\
  served_from_cache host components w' = false /\
  (BASE_URL_invalid host = None ->
   sent (snd (fetchLiveStock host w'))
     = sent w' ++ [GET [(str "action", str "getLiveStock")]] /\
   sent (snd (fetchComponentsByCase host caseName w'))
     = sent w' ++ [GET [(str "action", str "getComponents");
                        (str "case", caseName)]] /\
   sent (snd (fetchComponentsByCase host caseName (snd (fetchLiveStock host w'))))
     = sent w' ++ [GET [(str "action", str "getLiveStock")];
                   GET [(str "action", str "getComponents");
                        (str "case", caseName)]]).
Proof.
  intros Hu Hc Hcomp Hq Hserved Hok stock components w'. subst w'.
  rewrite (borrowComponent_replied host _ _ _ _ w status statusText
             (mkPostReply flag None)) by done.
  cbn [truthy option_ToBoolean error fst snd with_cache cache ticks sent].
  set (w' := with_cache _ _).
  assert (Hstock : cache w' !! stock = None).
  { unfold w', with_cache. cbn [cache].
    rewrite lookup_delete_ne by apply keys_differ. apply lookup_delete_eq. }
  assert (Hcomps : cache w' !! components = None) by apply lookup_delete_eq.
  split; [done|]. split; [done|]. split.
  { intros other H1 H2. by rewrite !lookup_delete_ne. }
  split; [by apply absent_not_served|]. split; [by apply absent_not_served|].
  intros Hurl.
  assert (Hlive : sent (snd (fetchLiveStock host w'))
                  = sent w' ++ [GET [(str "action", str "getLiveStock")]]).
  { apply cachedGet_miss_sends; [by apply absent_not_served | done]. }
  split; [exact Hlive|].
  rewrite !fetchComponentsByCase_cases, Hc. split.
  - apply cachedGet_miss_sends; [by apply absent_not_served | done].
  - rewrite cachedGet_miss_sends; [by rewrite Hlive, <- app_assoc | | done].
    apply absent_not_served. unfold fetchLiveStock.
    rewrite cachedGet_other by apply keys_differ. exact Hcomps.
Qed.

(** C1, run: [borrowComponent("u1", "Case A", "Widget", 2)] against a
    backend that answers [{success: true}], with both keys cached. *)
Lemma borrowComponent_success_witness :
  let host := steady_host (JArr []) accepted in
  let w := mkWorld {[ str "getLiveStock" := mkEntry (JArr []) 0;
                      str "getComponents:Case A" := mkEntry (JArr []) 0;
                      str "getCases" := mkEntry (JArr []) 0 ]} 1 [] in
  let w' := snd (borrowComponent host (str "u1") (str "Case A") (str "Widget")
                   (of_Z 2) w) in
  fst (borrowComponent host (str "u1") (str "Case A") (str "Widget") (of_Z 2) w)
    = Returned (mkResult true (str "Successfully borrowed 2x Widget!")) /\
  cache w' = delete (str "getComponents:Case A")
               (delete (str "getLiveStock") (cache w)) /\
  sent (snd (fetchLiveStock host w'))
    = sent w' ++ [GET [(str "action", str "getLiveStock")]].
Proof.
  intros host w w'.
  destruct (borrowComponent_success host (str "u1") (str "Case A")
              (str "Widget") (of_Z 2) w 200%N (str "OK") (Some true))
    as (Hresult & Hcache & _ & _ & _ & Hfetch);
    [reflexivity..|].
  split; [exact Hresult|]. split; [exact Hcache|].
  exact (proj1 (Hfetch eq_refl)).
Defined.

(** C2 as stated fails for a reply whose [error] field is the empty
    string: [if (data.error)] takes it for absent, so the call reports
    success and evicts the stock entry. *)
Lemma borrowComponent_empty_error :
  let host := steady_host (JArr []) (refused []) in
  let w := mkWorld {[ str "getLiveStock" := mkEntry (JArr []) 0 ]} 1 [] in
  served_post host (length (sent w))
    (borrow_body (str "u1") (str "Case A") (str "Widget") (of_Z 2))
    = Response 200 (str "OK") (Returned (mkPostReply None (Some []))) /\
  fst (borrowComponent host (str "u1") (str "Case A") (str "Widget") (of_Z 2) w)
    = Returned (mkResult true (str "Successfully borrowed 2x Widget!")) /\
  cache w !! str "getLiveStock" = Some (mkEntry (JArr []) 0) /\
  cache (snd (borrowComponent host (str "u1") (str "Case A") (str "Widget")
                (of_Z 2) w)) !! str "getLiveStock" = None.
Proof.
  intros host w. split; [reflexivity|]. split; [reflexivity|].
  split; [apply lookup_singleton_eq|].
  rewrite (borrowComponent_replied host _ _ _ _ w 200%N (str "OK")
             (mkPostReply None (Some []))) by reflexivity.
  change (truthy (error (mkPostReply None (Some [])))) with false.
  cbn [snd with_cache cache].
  rewrite lookup_delete_ne by apply keys_differ. apply lookup_delete_eq.
Qed.

(** C2, amended. When the arguments pass validation and the backend's
    reply carries a non-empty [error] string, [borrowComponent] and
    [returnComponent] return [{success: false, message: <that string>}]
    without raising and invalidate nothing: the store and the clock are
    as before, only the POST has been added to the requests sent. *)
Theorem write_refused_keeps_cache host userId caseName component quantity w
    status statusText flag reason :
  blank userId = false -> blank caseName = false -> blank component = false ->
  positive_integer quantity = true ->
  reason <> [] ->
  ok status = true ->
  (served_post host (length (sent w))
     (borrow_body userId caseName component quantity)
     = Response status statusText (Returned (mkPostReply flag (Some reason))) ->
   borrowComponent host userId caseName component quantity w
   = (Returned (mkResult false reason),
      mkWorld (cache w) (ticks w)
        (sent w ++ [POST (borrow_body userId caseName component quantity)]))) /\
  (served_post host (length (sent w)) (return_body userId component quantity)
     = Response status statusText (Returned (mkPostReply flag (Some reason))) ->
   returnComponent host userId component quantity w
   = (Returned (mkResult false reason),
      mkWorld (cache w) (ticks w)
        (sent w ++ [POST (return_body userId component quantity)]))).
Proof.
  intros Hu Hc Hcomp Hq Hreason Hok. split; intros Hserved.
  - rewrite (borrowComponent_replied host _ _ _ _ w status statusText
               (mkPostReply flag (Some reason))) by done.
    by destruct reason.
  - rewrite (returnComponent_replied host _ _ _ w status statusText
               (mkPostReply flag (Some reason))) by done.
    by destruct reason.
Qed.

(** C2, run: the backend answers [{error: "Not enough stock available"}]
    while the stock list is cached. *)
Lemma write_refused_keeps_cache_witness :
  let host := steady_host (JArr []) (refused (str "Not enough stock available")) in
  let w := mkWorld {[ str "getLiveStock" := mkEntry (JArr []) 0 ]} 1 [] in
  fst (borrowComponent host (str "u1") (str "Case A") (str "Widget") (of_Z 2) w)
    = Returned (mkResult false (str "Not enough stock available")) /\
  cache (snd (borrowComponent host (str "u1") (str "Case A") (str "Widget")
                (of_Z 2) w)) = cache w /\
  fst (returnComponent host (str "u1") (str "Widget") (of_Z 2) w)
    = Returned (mkResult false (str "Not enough stock available")) /\
  cache (snd (returnComponent host (str "u1") (str "Widget") (of_Z 2) w))
    = cache w.
Proof.
  intros host w.
  destruct (write_refused_keeps_cache host (str "u1") (str "Case A")
              (str "Widget") (of_Z 2) w 200%N (str "OK") None
              (str "Not enough stock available"))
    as [Hborrow Hreturn]; [reflexivity.. | cbv; discriminate | reflexivity |].
  rewrite (Hborrow eq_refl), (Hreturn eq_refl). done.
Defined.

(* ------------------------------------------------------------------------- *)
(** ** Validation in front of the API functions *)

Local Ltac validation_error :=
  first [ apply ValidationError_required | apply ValidationError_positive ];
  cbn; tauto.

Lemma borrowComponent_invalid host userId caseName component quantity w :
  blank userId = true \/ blank caseName = true \/ blank component = true \/
  positive_integer quantity = false ->
  exists e, ValidationError e /\
    borrowComponent host userId caseName component quantity w = (Thrown e, w).
Proof.
  intros Hbad. rewrite borrowComponent_cases.
  destruct (blank userId); [eexists; split; [|reflexivity]; validation_error|].
  destruct (blank caseName); [eexists; split; [|reflexivity]; validation_error|].
  destruct (blank component); [eexists; split; [|reflexivity]; validation_error|].
  destruct (positive_integer quantity); [|eexists; split; [|reflexivity]; validation_error].
  destruct Hbad as [?|[?|[?|?]]]; discriminate.
Qed.

Lemma returnComponent_invalid host userId component quantity w :
  blank userId = true \/ blank component = true \/
  positive_integer quantity = false ->
  exists e, ValidationError e /\
    returnComponent host userId component quantity w = (Thrown e, w).
Proof.
  intros Hbad. rewrite returnComponent_cases.
  destruct (blank userId); [eexists; split; [|reflexivity]; validation_error|].
  destruct (blank component); [eexists; split; [|reflexivity]; validation_error|].
  destruct (positive_integer quantity); [|eexists; split; [|reflexivity]; validation_error].
  destruct Hbad as [?|[?|?]]; discriminate.
Qed.

Lemma fetchComponentsByCase_invalid host caseName w :
  blank caseName = true ->
  exists e, ValidationError e /\
    fetchComponentsByCase host caseName w = (Thrown e, w).
Proof.
  intros Hbad. rewrite fetchComponentsByCase_cases, Hbad.
  eexists; split; [|reflexivity]; validation_error.
Qed.

Lemma fetchUserHoldings_invalid host userId w :
  blank userId = true ->
  exists e, ValidationError e /\
    fetchUserHoldings host userId w = (Thrown e, w).
Proof.
  intros Hbad. rewrite fetchUserHoldings_cases, Hbad.
  eexists; split; [|reflexivity]; validation_error.
Qed.

(** C7. Each API function that has a precondition throws a validation
    error when an argument violates it (a required string that is empty,
    a quantity that is not an integer of at least one) and leaves the
    world exactly as it was: no request handed to [fetch], no change to
    the cache, no reading of the clock. So do [returnComponent("u1",
    "Widget", 0)] and [returnComponent("u1", "Widget", 1.5)], with the
    message "Quantity must be a positive integer.". *)
Theorem validation_precedes_network host w :
  (forall caseName,
     blank caseName = true ->
     exists e, ValidationError e /\
       fetchComponentsByCase host caseName w = (Thrown e, w)) /\
  (forall userId caseName component quantity,
     blank userId = true \/ blank caseName = true \/ blank component = true \/
     positive_integer quantity = false ->
     exists e, ValidationError e /\
       borrowComponent host userId caseName component quantity w = (Thrown e, w)) /\
  (forall userId,
     blank userId = true ->
     exists e, ValidationError e /\
       fetchUserHoldings host userId w = (Thrown e, w)) /\
  (forall userId component quantity,
     blank userId = true \/ blank component = true \/
     positive_integer quantity = false ->
     exists e, ValidationError e /\
       returnComponent host userId component quantity w = (Thrown e, w)) /\
  blank [] = true /\
  (forall z, z <= 0 -> positive_integer (of_Z z) = false) /\
  (forall q, Z.rem (Qnum q) (Zpos (Qden q)) <> 0 ->
     positive_integer (Finite q) = false) /\
  positive_integer NaN = false /\
  positive_integer Infinity = false /\
  positive_integer NegInfinity = false /\
  returnComponent host (str "u1") (str "Widget") (of_Z 0) w
    = (Thrown (Error (str "Quantity must be a positive integer.")), w) /\
  returnComponent host (str "u1") (str "Widget") (Finite (Qmake 3 2)) w
    = (Thrown (Error (str "Quantity must be a positive integer.")), w).
Proof.
  split; [intros; by apply fetchComponentsByCase_invalid|].
  split; [intros; by apply borrowComponent_invalid|].
  split; [intros; by apply fetchUserHoldings_invalid|].
  split; [intros; by apply returnComponent_invalid|].
  split; [reflexivity|].
  split.
  { intros z Hz. destruct (positive_integer (of_Z z)) eqn:Hp; [|done].
    apply positive_integer_of_Z in Hp. lia. }
  split.
  { intros q Hq. unfold positive_integer. cbn.
    by destruct (Z.eqb_spec (Z.rem (Qnum q) (Z.pos (Qden q))) 0). }
  repeat (split; [reflexivity|]).
  by rewrite returnComponent_cases.
Qed.

(** C7, run: [borrowComponent] of an empty user id, "Case A", "Widget" and
    2, with a cached
    stock list. *)
Lemma validation_precedes_network_witness :
  let host := steady_host (JArr []) accepted in
  let w := mkWorld {[ str "getLiveStock" := mkEntry (JArr []) 0 ]} 1 [] in
  borrowComponent host [] (str "Case A") (str "Widget") (of_Z 2) w
    = (Thrown (Error (str "User ID is required.")), w).
Proof.
  intros host w.
  destruct (validation_precedes_network host w) as (_ & Hborrow & _).
  destruct (Hborrow [] (str "Case A") (str "Widget") (of_Z 2))
    as (e & _ & Hthrown); [by left|].
  rewrite Hthrown. f_equal.
  assert (Hrun : fst (borrowComponent host [] (str "Case A")
                        (str "Widget") (of_Z 2) w)
                 = Thrown (Error (str "User ID is required."))) by reflexivity.
  rewrite Hthrown in Hrun. exact Hrun.
Defined.

(** C9. A required string argument made only of white space and line
    terminators is rejected like the empty string: [validateNotEmpty]
    throws "<field> is required." for it, and every API function called
    with it in the place of [userId], [caseName] or [component] throws the
    validation error it throws for the empty string there, leaving the
    world as it was (nothing is handed to [fetch]). *)
Theorem whitespace_only_rejected host s w :
  forallb strippable s = true ->
  (forall fieldName,
     validateNotEmpty s fieldName w
       = (Thrown (Error (fieldName ++ str " is required.")), w) /\
     validateNotEmpty [] fieldName w
       = (Thrown (Error (fieldName ++ str " is required.")), w)) /\
  (exists e, ValidationError e /\
     fetchComponentsByCase host s w = (Thrown e, w) /\
     fetchComponentsByCase host [] w = (Thrown e, w)) /\
  (exists e, ValidationError e /\
     fetchUserHoldings host s w = (Thrown e, w) /\
     fetchUserHoldings host [] w = (Thrown e, w)) /\
  (forall caseName component quantity, exists e, ValidationError e /\
     borrowComponent host s caseName component quantity w = (Thrown e, w) /\
     borrowComponent host [] caseName component quantity w = (Thrown e, w)) /\
  (forall userId component quantity, exists e, ValidationError e /\
     borrowComponent host userId s component quantity w = (Thrown e, w) /\
     borrowComponent host userId [] component quantity w = (Thrown e, w)) /\
  (forall userId caseName quantity, exists e, ValidationError e /\
     borrowComponent host userId caseName s quantity w = (Thrown e, w) /\
     borrowComponent host userId caseName [] quantity w = (Thrown e, w)) /\
  (forall component quantity, exists e, ValidationError e /\
     returnComponent host s component quantity w = (Thrown e, w) /\
     returnComponent host [] component quantity w = (Thrown e, w)) /\
  (forall userId quantity, exists e, ValidationError e /\
     returnComponent host userId s quantity w = (Thrown e, w) /\
     returnComponent host userId [] quantity w = (Thrown e, w)).
Proof.
  intros Hs. apply blank_spec in Hs.
  assert (He : blank [] = true) by reflexivity.
  split.
  { intros fieldName. by rewrite !validateNotEmpty_rejects. }
  split.
  { rewrite !fetchComponentsByCase_cases, Hs, He.
    eexists; split; [|split; reflexivity]; validation_error. }
  split.
  { rewrite !fetchUserHoldings_cases, Hs, He.
    eexists; split; [|split; reflexivity]; validation_error. }
  split.
  { intros. rewrite !borrowComponent_cases, Hs, He.
    eexists; split; [|split; reflexivity]; validation_error. }
  split.
  { intros. rewrite !borrowComponent_cases, Hs, He.
    destruct (blank userId);
      eexists; (split; [|split; reflexivity]); validation_error. }
  split.
  { intros. rewrite !borrowComponent_cases, Hs, He.
    destruct (blank userId), (blank caseName);
      eexists; (split; [|split; reflexivity]); validation_error. }
  split.
  { intros. rewrite !returnComponent_cases, Hs, He.
    eexists; split; [|split; reflexivity]; validation_error. }
  intros. rewrite !returnComponent_cases, Hs, He.
  destruct (blank userId);
    eexists; (split; [|split; reflexivity]); validation_error.
Qed.

(** C9, run: a user id of a space, a tab, a no-break space and a line
    feed. *)
Lemma whitespace_only_rejected_witness :
  let host := steady_host (JArr []) accepted in
  validateNotEmpty [32; 9; 160; 10]%N (str "User ID") empty_world
    = (Thrown (Error (str "User ID is required.")), empty_world) /\
  validateNotEmpty [] (str "User ID") empty_world
    = (Thrown (Error (str "User ID is required.")), empty_world).
Proof.
  intros host.
  exact (proj1 (whitespace_only_rejected host [32; 9; 160; 10]%N empty_world
                  eq_refl) (str "User ID")).
Defined.

(** C10. On a call that passes validation, the [userId] handed to the
    backend by [borrowComponent], [returnComponent] and
    [fetchUserHoldings] is [userId.trim()], the argument without its
    leading and trailing white space, while [caseName] and [component]
    (and the quantity) go out exactly as supplied; and the confirmation
    message of a successful write carries [component] exactly as
    supplied. *)
Theorem userId_sent_trimmed host userId w :
  blank userId = false ->
  stripped_of userId (trim userId) /\
  (forall caseName component quantity,
     blank caseName = false -> blank component = false ->
     positive_integer quantity = true ->
     sent (snd (borrowComponent host userId caseName component quantity w))
       = sent w ++ [POST [(str "action", JStr (str "borrow"));
                          (str "userId", JStr (trim userId));
                          (str "caseName", JStr caseName);
                          (str "component", JStr component);
                          (str "quantity", JNum quantity)]] /\
     (forall result,
        fst (borrowComponent host userId caseName component quantity w)
          = Returned result ->
        success result = true ->
        message result
          = str "Successfully borrowed " ++ Number_toString host quantity
            ++ str "x " ++ component ++ str "!")) /\
  (forall component quantity,
     blank component = false ->
     positive_integer quantity = true ->
     sent (snd (returnComponent host userId component quantity w))
       = sent w ++ [POST [(str "action", JStr (str "return"));
                          (str "userId", JStr (trim userId));
                          (str "component", JStr component);
                          (str "quantity", JNum quantity)]] /\
     (forall result,
        fst (returnComponent host userId component quantity w)
          = Returned result ->
        success result = true ->
        message result
          = str "Successfully returned " ++ Number_toString host quantity
            ++ str "x " ++ component ++ str "!")) /\
  (BASE_URL_invalid host = None ->
   sent (snd (fetchUserHoldings host userId w))
     = sent w ++ [GET [(str "action", str "getUserHoldings");
                       (str "userId", trim userId)]]).
Proof.
  intros Hu. split; [apply trim_stripped|]. split; [|split].
  - intros caseName component quantity Hc Hcomp Hq.
    fold (borrow_body userId caseName component quantity).
    destruct (borrowComponent host userId caseName component quantity w)
      as [r w'] eqn:Hrun. cbn [fst snd].
    rewrite borrowComponent_cases, Hu, Hc, Hcomp, Hq in Hrun. cbn [negb] in Hrun.
    unfold after_borrow_validation, bind at 1 in Hrun.
    rewrite post_effect in Hrun.
    destruct (fst (decode host _ w)) as [reply|e];
      [|injection Hrun as <- <-; by split].
    destruct (truthy (error reply)).
    + injection Hrun as <- <-. split; [done|]. intros result [= <-]. discriminate.
    + unfold bind in Hrun.
      rewrite !invalidateCache_key in Hrun by (cbv; discriminate).
      injection Hrun as <- <-. split; [done|]. by intros result [= <-].
  - intros component quantity Hcomp Hq.
    fold (return_body userId component quantity).
    destruct (returnComponent host userId component quantity w)
      as [r w'] eqn:Hrun. cbn [fst snd].
    rewrite returnComponent_cases, Hu, Hcomp, Hq in Hrun. cbn [negb] in Hrun.
    unfold after_return_validation, bind at 1 in Hrun.
    rewrite post_effect in Hrun.
    destruct (fst (decode host _ w)) as [reply|e];
      [|injection Hrun as <- <-; by split].
    destruct (truthy (error reply)).
    + injection Hrun as <- <-. split; [done|]. intros result [= <-]. discriminate.
    + unfold bind in Hrun.
      rewrite !invalidateCache_key in Hrun by (cbv; discriminate).
      injection Hrun as <- <-. split; [done|]. by intros result [= <-].
  - intros Hurl. rewrite fetchUserHoldings_cases, Hu.
    destruct (get_effect host [(str "action", str "getUserHoldings");
                               (str "userId", trim userId)] w) as [r ->].
    by rewrite Hurl.
Qed.

(** C10, run: [borrowComponent("  u1 ", " Case A", "Widget ", 2)]. *)
Lemma userId_sent_trimmed_witness :
  let host := steady_host (JArr []) accepted in
  sent (snd (borrowComponent host (str "  u1 ") (str " Case A") (str "Widget ")
               (of_Z 2) empty_world))
    = [POST [(str "action", JStr (str "borrow"));
             (str "userId", JStr (str "u1"));
             (str "caseName", JStr (str " Case A"));
             (str "component", JStr (str "Widget "));
             (str "quantity", JNum (of_Z 2))]] /\
  fst (borrowComponent host (str "  u1 ") (str " Case A") (str "Widget ")
         (of_Z 2) empty_world)
    = Returned (mkResult true (str "Successfully borrowed 2x Widget !")).
Proof.
  intros host.
  destruct (userId_sent_trimmed host (str "  u1 ") empty_world eq_refl)
    as (_ & Hborrow & _).
  destruct (Hborrow (str " Case A") (str "Widget ") (of_Z 2) eq_refl eq_refl eq_refl)
    as [Hsent _].
  split; [exact Hsent | reflexivity].
Defined.

(* ------------------------------------------------------------------------- *)
(** ** Further properties of the request layer *)

Lemma trimStart_fixed s :
  (forall c rest, s = c :: rest -> strippable c = false) -> trimStart s = s.
Proof.
  destruct s as [|c rest]; [done|]. intros Hhead. cbn.
  by rewrite (Hhead c rest).
Qed.

Lemma trimEnd_fixed s :
  (forall c init, s = init ++ [c] -> strippable c = false) -> trimEnd s = s.
Proof.
  intros Hlast. unfold trimEnd. rewrite trimStart_fixed; [apply rev_involutive|].
  intros c rest Hrev. apply (Hlast c (rev rest)).
  apply (f_equal (@rev N)) in Hrev. by rewrite rev_involutive in Hrev.
Qed.

Lemma trim_idempotent s : trim (trim s) = trim s.
Proof.
  destruct (trim_stripped s) as (_ & _ & _ & _ & _ & Hhead & Hlast).
  unfold trim at 1. by rewrite trimStart_fixed, trimEnd_fixed.
Qed.

Lemma blank_trim s : blank (trim s) = blank s.
Proof.
  unfold blank. rewrite trim_idempotent, orb_diag.
  destruct s as [|c rest]; [done|]. done.
Qed.

(** X1. When the arguments pass validation and the backend's 2xx reply has
    no truthy [error], [returnComponent] returns the success result with
    the "Successfully returned" message and deletes the entry of
    ["getLiveStock"] only: the case list and every component list stay
    cached, and the next stock read is not served from the cache. *)
Theorem returnComponent_success host userId component quantity w
    status statusText reply :
  blank userId = false -> blank component = false ->
  positive_integer quantity = true ->
  served_post host (length (sent w)) (return_body userId component quantity)
    = Response status statusText (Returned reply) ->
  ok status = true ->
  truthy (error reply) = false ->
  let w' := snd (returnComponent host userId component quantity w) in
  fst (returnComponent host userId component quantity w)
    = Returned (mkResult true
                  (str "Successfully returned " ++ Number_toString host quantity
                   ++ str "x " ++ component ++ str "!")) /\
  cache w' = delete (str "getLiveStock") (cache w) /\
  (forall caseName,
     cache w' !! (str "getComponents:" ++ caseName)
       = cache w !! (str "getComponents:" ++ caseName)) /\
  cache w' !! str "getCases" = cache w !! str "getCases" /\
  served_from_cache host (str "getLiveStock") w' = false.
Proof.
  intros Hu Hcomp Hq Hserved Hok Herror w'. subst w'.
  rewrite (returnComponent_replied host _ _ _ w status statusText reply) by done.
  rewrite Herror. cbn [fst snd with_cache cache].
  split; [done|]. split; [done|]. split; [|split].
  - intros caseName. rewrite lookup_delete_ne; [done|].
    intros Heq. by apply (keys_differ caseName).
  - rewrite lookup_delete_ne; [done|]. cbv. discriminate.
  - apply absent_not_served. apply lookup_delete_eq.
Qed.

(** X1, run: two widgets returned while stock, cases and a component list
    are cached. *)
Lemma returnComponent_success_witness :
  let host := steady_host (JArr []) accepted in
  let w := mkWorld {[ str "getLiveStock" := mkEntry (JArr []) 0;
                      str "getComponents:Case A" := mkEntry (JArr []) 0 ]} 1 [] in
  fst (returnComponent host (str "u1") (str "Widget") (of_Z 2) w)
    = Returned (mkResult true (str "Successfully returned 2x Widget!")) /\
  cache (snd (returnComponent host (str "u1") (str "Widget") (of_Z 2) w))
    !! str "getComponents:Case A" = Some (mkEntry (JArr []) 0).
Proof.
  intros host w.
  destruct (returnComponent_success host (str "u1") (str "Widget") (of_Z 2) w
              200%N (str "OK") (mkPostReply (Some true) None))
    as (Hresult & _ & Hlists & _); [reflexivity..|].
  split; [exact Hresult|].
  change (str "getComponents:Case A") with (str "getComponents:" ++ str "Case A").
  rewrite (Hlists (str "Case A")). subst w. cbn [cache].
  rewrite lookup_insert_ne by (cbv; discriminate). apply lookup_singleton_eq.
Defined.

(** X2. When the arguments pass validation and the write helper fails
    (fetch rejects, the status is not 2xx, or the body does not parse),
    [borrowComponent] and [returnComponent] throw that same error and
    invalidate nothing: the store and the clock are as before and the one
    POST has gone out. *)
Theorem write_failure_keeps_cache host userId caseName component quantity w e :
  blank userId = false -> blank caseName = false -> blank component = false ->
  positive_integer quantity = true ->
  (fst (post host (borrow_body userId caseName component quantity) w) = Thrown e ->
   borrowComponent host userId caseName component quantity w
   = (Thrown e,
      mkWorld (cache w) (ticks w)
        (sent w ++ [POST (borrow_body userId caseName component quantity)]))) /\
  (fst (post host (return_body userId component quantity) w) = Thrown e ->
   returnComponent host userId component quantity w
   = (Thrown e,
      mkWorld (cache w) (ticks w)
        (sent w ++ [POST (return_body userId component quantity)]))).
Proof.
  intros Hu Hc Hcomp Hq. split; intros Hfail.
  - rewrite borrowComponent_cases, Hu, Hc, Hcomp, Hq. cbn [negb].
    unfold after_borrow_validation, bind. rewrite post_effect in *.
    cbn [fst] in Hfail. by rewrite Hfail.
  - rewrite returnComponent_cases, Hu, Hcomp, Hq. cbn [negb].
    unfold after_return_validation, bind. rewrite post_effect in *.
    cbn [fst] in Hfail. by rewrite Hfail.
Qed.

(** X2, run: the backend answers 500 with a body that would otherwise be
    read as a refusal. *)
Lemma write_failure_keeps_cache_witness :
  let host := steady_host (JArr [])
                (Response 500 (str "Internal Server Error")
                   (Returned (mkPostReply None (Some (str "Not enough stock"))))) in
  let w := mkWorld {[ str "getLiveStock" := mkEntry (JArr []) 0 ]} 1 [] in
  fst (borrowComponent host (str "u1") (str "Case A") (str "Widget") (of_Z 2) w)
    = Thrown (Error (str "Request failed: 500 Internal Server Error")) /\
  cache (snd (borrowComponent host (str "u1") (str "Case A") (str "Widget")
                (of_Z 2) w)) = cache w.
Proof.
  intros host w.
  destruct (write_failure_keeps_cache host (str "u1") (str "Case A")
              (str "Widget") (of_Z 2) w
              (Error (str "Request failed: 500 Internal Server Error")))
    as [Hborrow _]; [reflexivity..|].
  by rewrite (Hborrow eq_refl).
Defined.

Lemma ok_range status : ok status = true <-> (200 <= status <= 299)%N.
Proof.
  unfold ok. rewrite andb_true_iff, !N.leb_le. tauto.
Qed.

Lemma decode_returns {T} host (res : FetchResult T) w (v : T) :
  fst (decode host res w) = Returned v <->
  exists status statusText,
    res = Response status statusText (Returned v) /\ (200 <= status <= 299)%N.
Proof.
  split.
  - destruct res as [reason|status statusText body]; cbn; [discriminate|].
    destruct (ok status) eqn:Hok; cbn; [|discriminate].
    intros ->. exists status, statusText. by rewrite <- ok_range.
  - intros (status & statusText & -> & Hok). apply ok_range in Hok.
    cbn. by rewrite Hok.
Qed.

Lemma get_frame host params w :
  cache (snd (get host params w)) = cache w /\
  ticks (snd (get host params w)) = ticks w /\
  sent (snd (get host params w))
    = sent w ++ match BASE_URL_invalid host with
                | None => [GET params]
                | Some _ => []
                end.
Proof. by destruct (get_effect host params w) as [r ->]. Qed.

Lemma get_returns host params w value :
  fst (get host params w) = Returned value <->
  BASE_URL_invalid host = None /\
  exists status statusText,
    served_get host (length (sent w)) params
      = Response status statusText (Returned value) /\
    (200 <= status <= 299)%N.
Proof.
  unfold get. destruct (BASE_URL_invalid host) as [e|].
  - split; [discriminate|]. by intros [? _].
  - unfold bind, fetch_get. rewrite decode_pure. cbn [fst].
    rewrite decode_returns. tauto.
Qed.

(** X3. The two request helpers never touch the store or the clock. [post]
    always hands exactly its one request to [fetch]; [get] hands exactly
    one when the endpoint URL parses and none otherwise. Either returns a
    value only when the reply has a status from 200 to 299 and a body that
    parses to that value. *)
Theorem request_helpers_effect host w :
  (forall body,
     cache (snd (post host body w)) = cache w /\
     ticks (snd (post host body w)) = ticks w /\
     sent (snd (post host body w)) = sent w ++ [POST body]) /\
  (forall body reply,
     fst (post host body w) = Returned reply <->
     exists status statusText,
       served_post host (length (sent w)) body
         = Response status statusText (Returned reply) /\
       (200 <= status <= 299)%N) /\
  (forall params,
     cache (snd (get host params w)) = cache w /\
     ticks (snd (get host params w)) = ticks w /\
     sent (snd (get host params w))
       = sent w ++ match BASE_URL_invalid host with
                   | None => [GET params]
                   | Some _ => []
                   end) /\
  (forall params value,
     fst (get host params w) = Returned value <->
     BASE_URL_invalid host = None /\
     exists status statusText,
       served_get host (length (sent w)) params
         = Response status statusText (Returned value) /\
       (200 <= status <= 299)%N).
Proof.
  split; [|split; [|split]].
  - intros body. by rewrite post_effect.
  - intros body reply. rewrite post_effect. cbn [fst]. apply decode_returns.
  - intros params. apply get_frame.
  - intros params value. apply get_returns.
Qed.

Lemma served_from_cache_true host key w :
  served_from_cache host key w = true ->
  exists entry,
    cache w !! key = Some entry /\
    clock host (ticks w) - timestamp entry <= CACHE_TTL_MS /\
    truthy (data entry) = true.
Proof.
  unfold served_from_cache. destruct (cache w !! key) as [entry|]; [|done].
  rewrite andb_true_iff, negb_true_iff. intros [Hage Htruthy].
  exists entry. split; [done|]. split; [|done].
  destruct (Z.gtb_spec (clock host (ticks w) - timestamp entry) CACHE_TTL_MS);
    [done|lia].
Qed.

(** X4. A cached read that is not served from the cache and whose fetch
    succeeds returns the fetched value (truthy or not) and stores it under
    its key, stamped with the clock reading taken when storing; the
    entries of all other keys are as before and one GET has gone out. *)
Theorem cachedGet_populates host key params w status statusText value :
  served_from_cache host key w = false ->
  BASE_URL_invalid host = None ->
  served_get host (length (sent w)) params
    = Response status statusText (Returned value) ->
  ok status = true ->
  let looked := snd (getCached host key w) in
  let w' := snd (cachedGet host key params w) in
  fst (cachedGet host key params w) = Returned value /\
  cache w' = <[key := mkEntry value (clock host (ticks looked))]> (cache looked) /\
  cache w' !! key = Some (mkEntry value (clock host (ticks looked))) /\
  (forall other, other <> key -> cache w' !! other = cache w !! other) /\
  sent w' = sent w ++ [GET params].
Proof.
  intros Hmiss Hurl Hserved Hok looked w'.
  assert (Hother : forall other, other <> key ->
            cache w' !! other = cache w !! other)
    by (intros; by apply cachedGet_other).
  subst w' looked. rewrite cachedGet_miss in * by done.
  destruct (getCached_effect host key w) as (v & w1 & Hlook & Hsent & _).
  rewrite Hlook in *. cbn [snd] in *.
  assert (Hget : fst (get host params w1) = Returned value).
  { apply get_returns. split; [done|].
    exists status, statusText. rewrite Hsent. split; [done|]. by apply ok_range. }
  destruct (fetch_and_store_success host key params w1 value Hget) as [_ Hrun].
  rewrite Hrun in *. cbn [fst snd cache sent] in *.
  split; [done|]. split; [done|]. split; [apply lookup_insert_eq|].
  split; [done|]. by rewrite Hsent.
Qed.

(** X4, run: a cold cache and a backend that answers a list of cases. *)
Lemma cachedGet_populates_witness :
  let host := steady_host (JArr [JStr (str "TSYS Case1")]) accepted in
  fst (fetchCases host empty_world) = Returned (JArr [JStr (str "TSYS Case1")]) /\
  cache (snd (fetchCases host empty_world)) !! str "getCases"
    = Some (mkEntry (JArr [JStr (str "TSYS Case1")]) 0).
Proof.
  intros host.
  destruct (cachedGet_populates host (str "getCases")
              [(str "action", str "getCases")] empty_world 200%N (str "OK")
              (JArr [JStr (str "TSYS Case1")]))
    as (Hvalue & _ & Hstored & _); [reflexivity..|].
  split; [exact Hvalue | exact Hstored].
Defined.

(** X5. [fetchUserHoldings] is always live: a call with a valid user id
    and endpoint leaves the store and the clock as they were and hands one
    GET to [fetch], and so does the next call, however soon it follows. *)
Theorem fetchUserHoldings_live host userId w :
  blank userId = false ->
  BASE_URL_invalid host = None ->
  let request := GET [(str "action", str "getUserHoldings");
                      (str "userId", trim userId)] in
  let w1 := snd (fetchUserHoldings host userId w) in
  let w2 := snd (fetchUserHoldings host userId w1) in
  cache w1 = cache w /\ ticks w1 = ticks w /\ sent w1 = sent w ++ [request] /\
  cache w2 = cache w /\ sent w2 = sent w ++ [request; request].
Proof.
  intros Hu Hurl request w1 w2. subst w2 w1.
  rewrite !fetchUserHoldings_cases, Hu.
  destruct (get_frame host [(str "action", str "getUserHoldings");
                            (str "userId", trim userId)] w)
    as (Hc1 & Ht1 & Hs1).
  rewrite Hurl in Hs1.
  set (w1 := snd (get host _ w)) in *.
  destruct (get_frame host [(str "action", str "getUserHoldings");
                            (str "userId", trim userId)] w1)
    as (Hc2 & _ & Hs2).
  rewrite Hurl in Hs2.
  split; [done|]. split; [done|]. split; [done|]. split; [congruence|].
  by rewrite Hs2, Hs1, <- app_assoc.
Qed.

(** X5, run: the same holdings asked for twice in a row. *)
Lemma fetchUserHoldings_live_witness :
  let host := steady_host (JArr []) accepted in
  sent (snd (fetchUserHoldings host (str " u1")
               (snd (fetchUserHoldings host (str " u1") empty_world))))
    = [GET [(str "action", str "getUserHoldings"); (str "userId", str "u1")];
       GET [(str "action", str "getUserHoldings"); (str "userId", str "u1")]].
Proof.
  intros host.
  exact (proj2 (proj2 (proj2 (proj2
           (fetchUserHoldings_live host (str " u1") empty_world
              eq_refl eq_refl))))).
Defined.

Lemma component_key_injective a b :
  str "getComponents:" ++ a = str "getComponents:" ++ b -> a = b.
Proof. apply app_inv_head. Qed.

Lemma component_key_not_cases caseName :
  str "getComponents:" ++ caseName <> str "getCases".
Proof. intros Heq. cbv in Heq. discriminate. Qed.

(** X6. The cache keys do not collide: a component-list read for one case
    leaves the entries of every other case, of the case list and of the
    stock list as they were, and the case-list and stock reads leave every
    component list (and each other) alone. *)
Theorem cached_reads_keep_other_keys host caseName w :
  (forall other, other <> caseName ->
     cache (snd (fetchComponentsByCase host caseName w))
       !! (str "getComponents:" ++ other)
     = cache w !! (str "getComponents:" ++ other)) /\
  cache (snd (fetchComponentsByCase host caseName w)) !! str "getCases"
    = cache w !! str "getCases" /\
  cache (snd (fetchComponentsByCase host caseName w)) !! str "getLiveStock"
    = cache w !! str "getLiveStock" /\
  cache (snd (fetchCases host w)) !! (str "getComponents:" ++ caseName)
    = cache w !! (str "getComponents:" ++ caseName) /\
  cache (snd (fetchLiveStock host w)) !! (str "getComponents:" ++ caseName)
    = cache w !! (str "getComponents:" ++ caseName) /\
  cache (snd (fetchCases host w)) !! str "getLiveStock"
    = cache w !! str "getLiveStock" /\
  cache (snd (fetchLiveStock host w)) !! str "getCases"
    = cache w !! str "getCases".
Proof.
  rewrite fetchComponentsByCase_cases. unfold fetchCases, fetchLiveStock.
  split; [|split; [|split]].
  - intros other Hne. destruct (blank caseName); [done|].
    apply cachedGet_other. intros Heq. by apply component_key_injective in Heq.
  - destruct (blank caseName); [done|].
    apply cachedGet_other. intros Heq. by apply (component_key_not_cases caseName).
  - destruct (blank caseName); [done|].
    apply cachedGet_other. intros Heq. by apply (keys_differ caseName).
  - split; [apply cachedGet_other, component_key_not_cases|].
    split; [apply cachedGet_other, keys_differ|].
    split; apply cachedGet_other; cbv; discriminate.
Qed.

(** X7. A cache lookup never throws and never hands anything to [fetch];
    it leaves the entries of all other keys alone and adds none; and a
    value other than null that it returns is the value of an entry of that
    key no older than the TTL. *)
Theorem getCached_frame host key w :
  exists value,
    fst (getCached host key w) = Returned value /\
    sent (snd (getCached host key w)) = sent w /\
    (forall other, other <> key ->
       cache (snd (getCached host key w)) !! other = cache w !! other) /\
    cache (snd (getCached host key w)) ⊆ cache w /\
    (value <> JNull ->
     exists entry,
       cache w !! key = Some entry /\ value = data entry /\
       clock host (ticks w) - timestamp entry <= CACHE_TTL_MS).
Proof.
  destruct (cache w !! key) as [entry|] eqn:Hlook.
  - destruct (Z_le_gt_dec (clock host (ticks w) - timestamp entry) CACHE_TTL_MS).
    + rewrite (getCached_fresh host key entry w) by done.
      exists (data entry). cbn. split; [done|]. split; [done|].
      split; [done|]. split; [done|]. intros _. by exists entry.
    + rewrite (getCached_expired host key entry w) by done.
      exists JNull. cbn. split; [done|]. split; [done|].
      split; [intros; by apply lookup_delete_ne|].
      split; [apply delete_subseteq | done].
  - rewrite getCached_absent by done. exists JNull. cbn. by repeat split.
Qed.

Local Ltac unchanged :=
  split; [reflexivity|]; split; [reflexivity|]; split; [reflexivity|]; auto.

(** X8. Whatever the arguments and whatever the backend does, a write
    never reads the clock, never adds or changes a cache entry (the store
    afterwards is contained in the store before), leaves every key other
    than the ones it invalidates as it was, and hands at most its one POST
    to [fetch]. *)
Theorem writes_only_evict host userId caseName component quantity w :
  (let w' := snd (borrowComponent host userId caseName component quantity w) in
   ticks w' = ticks w /\
   cache w' ⊆ cache w /\
   (forall other,
      other <> str "getLiveStock" -> other <> str "getComponents:" ++ caseName ->
      cache w' !! other = cache w !! other) /\
   (sent w' = sent w \/
    sent w' = sent w ++ [POST (borrow_body userId caseName component quantity)])) /\
  (let w' := snd (returnComponent host userId component quantity w) in
   ticks w' = ticks w /\
   cache w' ⊆ cache w /\
   (forall other, other <> str "getLiveStock" ->
      cache w' !! other = cache w !! other) /\
   (sent w' = sent w \/
    sent w' = sent w ++ [POST (return_body userId component quantity)])).
Proof.
  split.
  - destruct (borrowComponent host userId caseName component quantity w)
      as [r w'] eqn:Hrun. cbn [snd]. rewrite borrowComponent_cases in Hrun.
    destruct (blank userId); [injection Hrun as <- <-; by unchanged|].
    destruct (blank caseName); [injection Hrun as <- <-; by unchanged|].
    destruct (blank component); [injection Hrun as <- <-; by unchanged|].
    destruct (negb (positive_integer quantity));
      [injection Hrun as <- <-; by unchanged|].
    unfold after_borrow_validation, bind at 1 in Hrun.
    rewrite post_effect in Hrun.
    destruct (fst (decode host _ w)) as [reply|e];
      [|injection Hrun as <- <-; by unchanged].
    destruct (truthy (error reply)); [injection Hrun as <- <-; by unchanged|].
    unfold bind in Hrun.
    rewrite !invalidateCache_key in Hrun by (cbv; discriminate).
    injection Hrun as <- <-. cbn. split; [done|]. split.
    + etrans; apply delete_subseteq.
    + split; [|by right]. intros other H1 H2. by rewrite !lookup_delete_ne.
  - destruct (returnComponent host userId component quantity w)
      as [r w'] eqn:Hrun. cbn [snd]. rewrite returnComponent_cases in Hrun.
    destruct (blank userId); [injection Hrun as <- <-; by unchanged|].
    destruct (blank component); [injection Hrun as <- <-; by unchanged|].
    destruct (negb (positive_integer quantity));
      [injection Hrun as <- <-; by unchanged|].
    unfold after_return_validation, bind at 1 in Hrun.
    rewrite post_effect in Hrun.
    destruct (fst (decode host _ w)) as [reply|e];
      [|injection Hrun as <- <-; by unchanged].
    destruct (truthy (error reply)); [injection Hrun as <- <-; by unchanged|].
    unfold bind in Hrun.
    rewrite !invalidateCache_key in Hrun by (cbv; discriminate).
    injection Hrun as <- <-. cbn. split; [done|]. split; [apply delete_subseteq|].
    split; [|by right]. intros other H1. by rewrite lookup_delete_ne.
Qed.

(** X9. [validatePositiveInt] returns exactly for the finite integers from
    one up; for every other number (a fraction, zero, a negative number,
    NaN, an infinity) it throws "<field> must be a positive integer.". In
    both cases the world is untouched. *)
Theorem validatePositiveInt_accepts_iff value fieldName w :
  (validatePositiveInt value fieldName w = (Returned tt, w) <->
   exists q z, value = Finite q /\ Qnum q = z * Zpos (Qden q) /\ 1 <= z) /\
  (validatePositiveInt value fieldName w = (Returned tt, w) \/
   validatePositiveInt value fieldName w
     = (Thrown (Error (fieldName ++ str " must be a positive integer.")), w)).
Proof.
  rewrite <- positive_integer_spec.
  destruct (positive_integer value) eqn:Hp.
  - rewrite validatePositiveInt_accepts by done. split; [done|by left].
  - rewrite validatePositiveInt_rejects by done.
    split; [split; discriminate | by right].
Qed.

Lemma forallb_false_witness {A} (p : A -> bool) (l : list A) :
  forallb p l = false <-> exists x, In x l /\ p x = false.
Proof.
  induction l as [|a l IH]; cbn.
  - split; [discriminate | by intros (? & [] & _)].
  - rewrite andb_false_iff, IH. split.
    + intros [Ha|(x & Hin & Hx)]; [exists a; auto | exists x; auto].
    + intros (x & [->|Hin] & Hx); [by left | right; by exists x].
Qed.

(** X10. [validateNotEmpty] returns exactly for the strings that hold at
    least one code unit that is neither white space nor a line terminator;
    for every other string it throws "<field> is required.". In both cases
    the world is untouched. *)
Theorem validateNotEmpty_accepts_iff value fieldName w :
  (validateNotEmpty value fieldName w = (Returned tt, w) <->
   exists c, In c value /\ strippable c = false) /\
  (validateNotEmpty value fieldName w = (Returned tt, w) \/
   validateNotEmpty value fieldName w
     = (Thrown (Error (fieldName ++ str " is required.")), w)).
Proof.
  rewrite <- forallb_false_witness.
  destruct (blank value) eqn:Hb.
  - rewrite validateNotEmpty_rejects by done.
    apply blank_spec in Hb. rewrite Hb. split; [split; discriminate | by right].
  - rewrite validateNotEmpty_accepts by done. split; [|by left].
    split; [intros _|done].
    destruct (forallb strippable value) eqn:Hall; [|done].
    apply blank_spec in Hall. congruence.
Qed.

(** X11. White space around the user id makes no difference: each function
    that takes a user id does exactly the same, request and result, for
    the id and for the id already trimmed. *)
Theorem userId_padding_irrelevant host userId w :
  (forall caseName component quantity,
     borrowComponent host userId caseName component quantity w
     = borrowComponent host (trim userId) caseName component quantity w) /\
  (forall component quantity,
     returnComponent host userId component quantity w
     = returnComponent host (trim userId) component quantity w) /\
  fetchUserHoldings host userId w = fetchUserHoldings host (trim userId) w.
Proof.
  split; [|split].
  - intros. rewrite !borrowComponent_cases. unfold borrow_body.
    by rewrite blank_trim, trim_idempotent.
  - intros. rewrite !returnComponent_cases. unfold return_body.
    by rewrite blank_trim, trim_idempotent.
  - rewrite !fetchUserHoldings_cases. by rewrite blank_trim, trim_idempotent.
Qed.

(** X12. Invalidation composes: invalidating twice is the same as once,
    two invalidations can be made in either order, and after
    [invalidateCache(key)] (any key, the empty string included) or
    [invalidateCache()] a cached read of that key is not served from the
    cache. *)
Theorem invalidateCache_composes host key other w :
  snd (invalidateCache key (snd (invalidateCache key w)))
    = snd (invalidateCache key w) /\
  snd (invalidateCache other (snd (invalidateCache key w)))
    = snd (invalidateCache key (snd (invalidateCache other w))) /\
  (forall k, key = Some k \/ key = None ->
     served_from_cache host k (snd (invalidateCache key w)) = false).
Proof.
  split; [|split].
  - destruct key as [[|c k]|]; cbn; unfold with_cache; cbn; [done| |done].
    f_equal. apply map_eq. intros i.
    destruct (decide (i = c :: k)) as [->|Hne].
    + by rewrite !lookup_delete_eq.
    + by rewrite !lookup_delete_ne.
  - destruct key as [[|c k]|], other as [[|d o]|]; cbn; unfold with_cache; cbn;
      rewrite ?delete_empty; try done.
    f_equal. apply delete_delete.
  - intros k [->| ->]; apply absent_not_served.
    + destruct k as [|c k]; cbn; [apply lookup_empty | apply lookup_delete_eq].
    + apply lookup_empty.
Qed.

(** X13. Every cached read hands [fetch] at most one request: none when it
    is served from the cache or the endpoint URL does not parse, exactly
    its GET otherwise. *)
Theorem cachedGet_request_count host key params w :
  sent (snd (cachedGet host key params w))
  = sent w ++ (if served_from_cache host key w then []
               else match BASE_URL_invalid host with
                    | None => [GET params]
                    | Some _ => []
                    end).
Proof.
  destruct (served_from_cache host key w) eqn:Hserved.
  - destruct (served_from_cache_true host key w Hserved)
      as (entry & Hlook & Hage & Htruthy).
    rewrite (cachedGet_hit host key params entry w) by done.
    cbn. by rewrite app_nil_r.
  - rewrite cachedGet_miss by done.
    destruct (getCached_effect host key w) as (v & w1 & -> & <- & _).
    cbn [snd]. unfold fetch_and_store, bind.
    destruct (get_effect host params w1) as [r ->].
    by destruct r.
Qed.

(* ------------------------------------------------------------------------- *)
(** ** The e-mail notifier *)

Section NotifierFacts.

Context (host : MailHost).

(** An optional setting is truthy when it is set to a non-empty string. *)
Lemma truthy_some_nonempty (o : option jsstring) :
  truthy o = true <-> exists s, o = Some s /\ s <> [].
Proof.
  destruct o as [[|c s]|]; cbn.
  - split; [discriminate|]. by intros (s & [= <-] & Hs).
  - split; [|done]. intros _. by exists (c :: s).
  - split; [discriminate|]. by intros (s & [=] & _).
Qed.

(** [sendBrevoEmail], outcome by outcome. *)
Lemma sendBrevoEmail_run to subject htmlContent m :
  sendBrevoEmail host to subject htmlContent m =
  (Returned tt,
   if negb (truthy (BREVO_API_KEY host))
   then mkMailWorld (outbox m)
          (console m ++ [console_warn
             (str "VITE_BREVO_API_KEY not set. Skipping email notification.")])
          (dates m)
   else if (negb (truthy (ADMIN_EMAIL host)) || negb (truthy (FROM_EMAIL host)))%bool
   then mkMailWorld (outbox m)
          (console m ++ [console_warn
             (str "Email configuration incomplete. Skipping notification.")])
          (dates m)
   else
     let request := mkBrevoRequest (BREVO_API_KEY host) (FROM_NAME host)
                      (FROM_EMAIL host) to (str "Admin") subject htmlContent in
     mkMailWorld (outbox m ++ [request])
       (console m ++
        match brevo host (length (outbox m)) request with
        | Rejected reason =>
            [console_error_caught (str "Error sending email:") reason]
        | Response status _ text =>
            if ok status then []
            else match text with
                 | Returned detail =>
                     [console_error (str "Failed to send email via Brevo:") detail]
                 | Thrown reason =>
                     [console_error_caught (str "Error sending email:") reason]
                 end
        end)
       (dates m)).
Proof.
  unfold sendBrevoEmail.
  destruct (negb (truthy (BREVO_API_KEY host))); [done|].
  destruct (negb (truthy (ADMIN_EMAIL host)) || negb (truthy (FROM_EMAIL host)))%bool;
    [done|].
  unfold try_catch, mail_bind, fetch_brevo. cbn zeta.
  destruct (brevo host _ _) as [reason|status statusText text]; [done|].
  cbn [fst snd]. destruct (ok status); cbn [negb].
  - unfold mail_ret. by rewrite app_nil_r.
  - unfold response_text. by destruct text.
Qed.

End NotifierFacts.

(** X14. [sendBrevoEmail] never throws, whatever the settings and whatever
    Brevo does (fetch rejecting and [response.text()] rejecting included):
    it returns, having handed [fetch] at most one request and written at
    most one line to the console. *)
Theorem sendBrevoEmail_never_throws host to subject htmlContent m :
  exists m',
    sendBrevoEmail host to subject htmlContent m = (Returned tt, m') /\
    dates m' = dates m /\
    (outbox m' = outbox m \/ exists request, outbox m' = outbox m ++ [request]) /\
    (console m' = console m \/ exists line, console m' = console m ++ [line]).
Proof.
  rewrite sendBrevoEmail_run. eexists. split; [done|].
  destruct (negb (truthy (BREVO_API_KEY host)));
    [cbn; split; [done|]; split; [by left|]; right; by eexists|].
  destruct (negb (truthy (ADMIN_EMAIL host)) || negb (truthy (FROM_EMAIL host)))%bool;
    [cbn; split; [done|]; split; [by left|]; right; by eexists|].
  cbn. split; [done|]. split; [right; by eexists|].
  destruct (brevo host _ _) as [reason|status statusText text];
    [right; by eexists|].
  destruct (ok status); [left; by rewrite app_nil_r|].
  destruct text; right; by eexists.
Qed.

(** X15. [sendBrevoEmail] hands a request to [fetch] exactly when the API
    key, the admin address and the sender address are all set to
    non-empty strings; otherwise nothing goes out and one warning is
    written. The request carries the key, the sender address, the given
    recipient under the name "Admin", the subject and the HTML as given,
    and as sender name [VITE_FROM_NAME], or "Makerspace Inventory" when
    that is unset or empty. *)
Theorem sendBrevoEmail_sends_iff_configured host to subject htmlContent m :
  let m' := snd (sendBrevoEmail host to subject htmlContent m) in
  let configured :=
    (exists key, VITE_BREVO_API_KEY host = Some key /\ key <> []) /\
    (exists admin, VITE_ADMIN_EMAIL host = Some admin /\ admin <> []) /\
    (exists from, VITE_FROM_EMAIL host = Some from /\ from <> []) in
  (configured ->
   outbox m' = outbox m ++
     [mkBrevoRequest (VITE_BREVO_API_KEY host)
        (match VITE_FROM_NAME host with
         | Some (c :: name) => c :: name
         | _ => str "Makerspace Inventory"
         end)
        (VITE_FROM_EMAIL host) to (str "Admin") subject htmlContent]) /\
  (~ configured ->
   outbox m' = outbox m /\
   exists text, console m' = console m ++ [console_warn text]).
Proof.
  intros m' configured. subst m' configured.
  rewrite sendBrevoEmail_run. cbn [snd].
  unfold BREVO_API_KEY, ADMIN_EMAIL, FROM_EMAIL, FROM_NAME.
  rewrite <- !truthy_some_nonempty.
  destruct (truthy (VITE_BREVO_API_KEY host)),
           (truthy (VITE_ADMIN_EMAIL host)),
           (truthy (VITE_FROM_EMAIL host)); cbn [negb orb];
    (split; [intros (H1 & H2 & H3) | intros Hnot]);
    try discriminate;
    try (exfalso; by apply Hnot);
    try (cbn; split; [done | by eexists]).
  cbn. by destruct (VITE_FROM_NAME host) as [[|c name]|].
Qed.

(** X15, run: a host with all three settings and no sender name. *)
Lemma sendBrevoEmail_sends_iff_configured_witness :
  let host := configured_mail (Response 201 (str "Created") (Returned [])) in
  outbox (snd (sendBrevoEmail host (Some (str "admin@example.org"))
                 (str "Hello") (str "<p>Hi</p>") quiet_mail))
  = [mkBrevoRequest (Some (str "xkeysib-1")) (str "Makerspace Inventory")
       (Some (str "hub@example.org")) (Some (str "admin@example.org"))
       (str "Admin") (str "Hello") (str "<p>Hi</p>")].
Proof.
  intros host.
  apply (proj1 (sendBrevoEmail_sends_iff_configured host
                  (Some (str "admin@example.org")) (str "Hello")
                  (str "<p>Hi</p>") quiet_mail)).
  split; [|split]; eexists; (split; [reflexivity | cbv; discriminate]).
Defined.

Lemma snoc_not_self {A} (l : list A) (x : A) : l ++ [x] <> l.
Proof.
  intros Heq. apply (f_equal (@length A)) in Heq.
  rewrite length_app in Heq. cbn in Heq. lia.
Qed.

(** X16. Once configured, [sendBrevoEmail] writes nothing to the console
    exactly when Brevo answers with a status from 200 to 299 (the body is
    then not read); a reply outside that range is logged with its body
    text, and a rejected [fetch] or an unreadable body is logged with the
    error caught. *)
Theorem sendBrevoEmail_logs_failures host to subject htmlContent m :
  truthy (VITE_BREVO_API_KEY host) = true ->
  truthy (VITE_ADMIN_EMAIL host) = true ->
  truthy (VITE_FROM_EMAIL host) = true ->
  let m' := snd (sendBrevoEmail host to subject htmlContent m) in
  let reply :=
    brevo host (length (outbox m))
      (mkBrevoRequest (BREVO_API_KEY host) (FROM_NAME host) (FROM_EMAIL host)
         to (str "Admin") subject htmlContent) in
  (console m' = console m <->
   exists status statusText text,
     reply = Response status statusText text /\ (200 <= status <= 299)%N) /\
  (forall status statusText detail,
     reply = Response status statusText (Returned detail) -> ok status = false ->
     console m'
     = console m ++ [console_error (str "Failed to send email via Brevo:") detail]) /\
  (forall reason,
     reply = Rejected reason \/
     (exists status statusText,
        reply = Response status statusText (Thrown reason) /\ ok status = false) ->
     console m'
     = console m ++ [console_error_caught (str "Error sending email:") reason]).
Proof.
  intros Hkey Hadmin Hfrom m' reply. subst m' reply.
  rewrite sendBrevoEmail_run. unfold BREVO_API_KEY, ADMIN_EMAIL, FROM_EMAIL in *.
  rewrite Hkey, Hadmin, Hfrom. cbn [negb orb snd console].
  destruct (brevo host _ _) as [reason|status statusText text].
  - split; [|split].
    + split; [intros Heq; by apply snoc_not_self in Heq|].
      by intros (? & ? & ? & [=] & _).
    + by intros ? ? ? [=].
    + intros r [[= <-]|(? & ? & [=] & _)]. done.
  - destruct (ok status) eqn:Hok.
    + split; [|split].
      * split; [|by rewrite app_nil_r]. intros _.
        exists status, statusText, text. by rewrite <- ok_range.
      * intros ? ? ? [= <- _ _] ?. congruence.
      * intros r [[=]|(? & ? & [= <- _ _] & ?)]. congruence.
    + split; [|split].
      * split.
        -- destruct text; intros Heq; by apply snoc_not_self in Heq.
        -- intros (? & ? & ? & [= <- _ _] & Hrange).
           apply ok_range in Hrange. congruence.
      * by intros ? ? ? [= _ _ ->] _.
      * intros r [[=]|(? & ? & [= _ _ ->] & _)]. done.
Qed.

(** X16, run: Brevo answers 401 with a message. *)
Lemma sendBrevoEmail_logs_failures_witness :
  let host := configured_mail
                (Response 401 (str "Unauthorized") (Returned (str "Key not found"))) in
  console (snd (sendBrevoEmail host (Some (str "admin@example.org"))
                  (str "Hello") (str "<p>Hi</p>") quiet_mail))
  = [console_error (str "Failed to send email via Brevo:") (str "Key not found")].
Proof.
  intros host.
  destruct (sendBrevoEmail_logs_failures host (Some (str "admin@example.org"))
              (str "Hello") (str "<p>Hi</p>") quiet_mail eq_refl eq_refl eq_refl)
    as (_ & Hrefused & _).
  exact (Hrefused 401%N (str "Unauthorized") (str "Key not found") eq_refl eq_refl).
Defined.

(** X17. [sendBorrowAlert] and [sendReturnAlert] never throw. Each takes
    one date and hands [fetch] at most one request; a request that goes
    out is addressed to the admin address under the name "Admin" and its
    subject is the parcel sign (U+1F4E6), or the check mark (U+2705) for
    a return, followed by " Inventory Alert: <component> Borrowed" (or
    "Returned"). *)
Theorem alerts_notify_admin host params m :
  (exists m',
     sendBorrowAlert host params m = (Returned tt, m') /\
     dates m' = S (dates m) /\
     (outbox m' = outbox m \/
      exists request,
        outbox m' = outbox m ++ [request] /\
        to_email request = VITE_ADMIN_EMAIL host /\
        to_name request = str "Admin" /\
        subject request
          = [0xD83D; 0xDCE6]%N ++ str " Inventory Alert: "
            ++ param_component params ++ str " Borrowed")) /\
  (exists m',
     sendReturnAlert host params m = (Returned tt, m') /\
     dates m' = S (dates m) /\
     (outbox m' = outbox m \/
      exists request,
        outbox m' = outbox m ++ [request] /\
        to_email request = VITE_ADMIN_EMAIL host /\
        to_name request = str "Admin" /\
        subject request
          = [0x2705]%N ++ str " Inventory Alert: "
            ++ param_component params ++ str " Returned")).
Proof.
  split.
  - unfold sendBorrowAlert, mail_bind, Date_toLocaleString.
    rewrite sendBrevoEmail_run. eexists. split; [reflexivity|].
    destruct (negb (truthy (BREVO_API_KEY host))); [by auto|].
    destruct (negb (truthy (ADMIN_EMAIL host)) || negb (truthy (FROM_EMAIL host)))%bool;
      [by auto|].
    cbn [dates outbox]. split; [done|]. right. by eexists.
  - unfold sendReturnAlert, mail_bind, Date_toLocaleString.
    rewrite sendBrevoEmail_run. eexists. split; [reflexivity|].
    destruct (negb (truthy (BREVO_API_KEY host))); [by auto|].
    destruct (negb (truthy (ADMIN_EMAIL host)) || negb (truthy (FROM_EMAIL host)))%bool;
      [by auto|].
    cbn [dates outbox]. split; [done|]. right. by eexists.
Qed.
